(** * bkge-import_mesh: the scene flattener and the binary writer of [main.cpp]

    The program imports a 3D model through Assimp, flattens the scene into
    three buffers (mesh records, a vertex pool, an index pool) and writes
    them to a file, field by field.  This development embeds [main.cpp] in
    Rocq and states the properties of its specification over the embedding.

    Conventions.
    - [uint32_t] and [unsigned int] values are numbers in [N]; every
      conversion to [uint32_t] and every [uint32_t] addition is written with
      its reduction modulo [2^32] ([to_u32]).
    - A [float] is only ever copied and written out by this program, so it is
      modelled by the four bytes of its object representation.
    - [std::vector] is a list; [v.size()] is its length, which is not
      bounded in the model (a 64-bit [size_t]).
    - Reading [mMaterials] past its end is undefined behaviour in C++; the
      model returns [None] there. *)

From Stdlib Require Import ZArith NArith List Ascii String Lia.
From stdpp Require Import base option list.
From coqutil Require Import Byte Word.LittleEndianList.
Import ListNotations.

Local Open Scope N_scope.

Ltac Zify.zify_post_hook ::= Z.to_euclidean_division_equations.

(** ** Machine numbers *)

(** Conversion of an unsigned value to [uint32_t]. *)
Definition to_u32 (n : N) : N := n mod 2 ^ 32.

(** [v.size()] of a [std::vector]. *)
Definition size {A : Type} (v : list A) : N := N.of_nat (length v).

(** The object representation of a [float]: its four bytes in memory order. *)
Record float : Type := Float { fb0 : byte; fb1 : byte; fb2 : byte; fb3 : byte }.

(** [0.0f]: every byte of its IEEE-754 representation is zero. *)
Definition float_zero : float := Float Byte.x00 Byte.x00 Byte.x00 Byte.x00.

Definition float_bytes (f : float) : list byte := [fb0 f; fb1 f; fb2 f; fb3 f].

(** ** Types of the libraries the program uses *)

(** [glm::vec3]; [r], [g], [b] are other names of [x], [y], [z]. *)
Module vec3.
Record t : Type := mk { x : float; y : float; z : float }.
Definition r := x.
Definition g := y.
Definition b := z.
Definition zero : t := mk float_zero float_zero float_zero.
End vec3.
Abbreviation vec3 := vec3.t.

(** Modelled from the spec: the value of a default-constructed [glm::vec3]
    ([Vertex vert;] at line 151 never assigns [vert.normal]).  GLM is not
    part of the sources; the specification describes the field as
    zero-filled, which is what GLM's initialising constructor produces. *)
Definition vec3_default : vec3 := vec3.zero.

Module aiVector3D.
Record t : Type := mk { x : float; y : float; z : float }.
End aiVector3D.
Abbreviation aiVector3D := aiVector3D.t.

Module aiColor3D.
Record t : Type := mk { r : float; g : float; b : float }.
End aiColor3D.
Abbreviation aiColor3D := aiColor3D.t.

(** [aiFace]: the array [mIndices] with its length [mNumIndices]. *)
Record aiFace : Type := { mIndices : list N }.

Definition mNumIndices (f : aiFace) : N := size (mIndices f).

(** [aiMaterial], as far as the program queries it: the value stored under
    [AI_MATKEY_COLOR_DIFFUSE], if the material has that key. *)
Record aiMaterial : Type := { color_diffuse : option aiColor3D }.

Inductive aiReturn : Type := aiReturn_SUCCESS | aiReturn_FAILURE.

(** Modelled from the spec: [aiMaterial::Get(AI_MATKEY_COLOR_DIFFUSE, out)]
    of Assimp, which is not part of the sources.  The result is the status
    and the new value of the output argument; a lookup that fails yields no
    colour and the argument keeps the value the caller gave it. *)
Definition Get (mat : aiMaterial) (out : aiColor3D) : aiReturn * aiColor3D :=
  match color_diffuse mat with
  | Some c => (aiReturn_SUCCESS, c)
  | None => (aiReturn_FAILURE, out)
  end.

(** [aiMesh]: each array with its element count ([mNumVertices] is the
    length of [mVertices], [mNumFaces] that of [mFaces]).  [mNormals] and
    the first texture-coordinate channel are absent when the mesh has none. *)
Record aiMesh : Type := {
  mVertices : list aiVector3D;
  mNormals : option (list aiVector3D);
  mTextureCoords0 : option (list aiVector3D);
  mFaces : list aiFace;
  mMaterialIndex : N
}.

Definition mNumVertices (m : aiMesh) : N := size (mVertices m).
Definition mNumFaces (m : aiMesh) : N := size (mFaces m).

Record aiScene : Type := {
  mMeshes : list aiMesh;
  mMaterials : list aiMaterial
}.

Definition mNumMeshes (s : aiScene) : N := size (mMeshes s).

(** What the types of Assimp guarantee of a scene: every count and every
    index is an [unsigned int]. *)
Record wf_mesh (m : aiMesh) : Prop := {
  wf_num_vertices : mNumVertices m < 2 ^ 32;
  wf_num_faces : mNumFaces m < 2 ^ 32;
  wf_material_index : mMaterialIndex m < 2 ^ 32;
  wf_faces : Forall (fun f => mNumIndices f < 2 ^ 32 /\
                              Forall (fun i => i < 2 ^ 32) (mIndices f)) (mFaces m)
}.

Record wf_scene (s : aiScene) : Prop := {
  wf_num_meshes : mNumMeshes s < 2 ^ 32;
  wf_meshes : Forall wf_mesh (mMeshes s)
}.

(** ** The program's own types (lines 17-31) *)

Record Mesh : Type := {
  color : vec3;
  vertex_base : N;
  vertex_count : N;
  index_base : N;
  index_count : N
}.

Record Vertex : Type := {
  position : vec3;
  normal : vec3
}.

(** A value-initialised [Mesh], as [meshes.resize] creates it. *)
Definition Mesh_zero : Mesh :=
  {| color := vec3.zero; vertex_base := 0; vertex_count := 0;
     index_base := 0; index_count := 0 |}.

Definition set_color (c : vec3) (m : Mesh) : Mesh :=
  {| color := c; vertex_base := vertex_base m; vertex_count := vertex_count m;
     index_base := index_base m; index_count := index_count m |}.
Definition set_vertex_base (n : N) (m : Mesh) : Mesh :=
  {| color := color m; vertex_base := n; vertex_count := vertex_count m;
     index_base := index_base m; index_count := index_count m |}.
Definition set_vertex_count (n : N) (m : Mesh) : Mesh :=
  {| color := color m; vertex_base := vertex_base m; vertex_count := n;
     index_base := index_base m; index_count := index_count m |}.
Definition set_index_base (n : N) (m : Mesh) : Mesh :=
  {| color := color m; vertex_base := vertex_base m; vertex_count := vertex_count m;
     index_base := n; index_count := index_count m |}.
Definition set_index_count (n : N) (m : Mesh) : Mesh :=
  {| color := color m; vertex_base := vertex_base m; vertex_count := vertex_count m;
     index_base := index_base m; index_count := n |}.

(** ** The flattener (lines 99-187) *)

(** The three vectors [meshes], [vertexes] and [indexes] of [main]. *)
Record Buffers : Type := {
  meshes : list Mesh;
  vertexes : list Vertex;
  indexes : list N
}.

(** [meshes[mesh_num].field = ...]: an update in place of one record. *)
Definition update_mesh (mesh_num : nat) (f : Mesh -> Mesh) (st : Buffers) : Buffers :=
  {| meshes := alter f mesh_num (meshes st);
     vertexes := vertexes st;
     indexes := indexes st |}.

Definition push_vertex (v : Vertex) (st : Buffers) : Buffers :=
  {| meshes := meshes st; vertexes := vertexes st ++ [v]; indexes := indexes st |}.

Definition push_index (i : N) (st : Buffers) : Buffers :=
  {| meshes := meshes st; vertexes := vertexes st; indexes := indexes st ++ [i] |}.

(** Body of the vertex loop (lines 142-168).  [p_normal] and
    [p_texture_coord] are addresses the loop computes and never reads
    through; only the position is stored, and [vert.normal] keeps the value
    its constructor gave it. *)
Definition load_vertex (p_position : aiVector3D) (st : Buffers) : Buffers :=
  let vert :=
    {| position := vec3.mk (aiVector3D.x p_position)
                           (aiVector3D.y p_position)
                           (aiVector3D.z p_position);
       normal := vec3_default |} in
  push_vertex vert st.

Definition load_vertexes (p_ai_mesh : aiMesh) (st : Buffers) : Buffers :=
  foldl (fun st p_position => load_vertex p_position st) st (mVertices p_ai_mesh).

(** Body of the face loop (lines 175-186). *)
Definition load_face (index_base : N) (mesh_num : nat) (ai_face : aiFace)
    (st : Buffers) : Buffers :=
  if negb (mNumIndices ai_face =? 3) then st
  else
    let idx k := nth k (mIndices ai_face) 0 in
    let st := push_index (to_u32 (index_base + idx 0%nat)) st in
    let st := push_index (to_u32 (index_base + idx 1%nat)) st in
    let st := push_index (to_u32 (index_base + idx 2%nat)) st in
    update_mesh mesh_num (fun m => set_index_count (to_u32 (index_count m + 3)) m) st.

Definition load_faces (index_base : N) (mesh_num : nat) (p_ai_mesh : aiMesh)
    (st : Buffers) : Buffers :=
  foldl (fun st ai_face => load_face index_base mesh_num ai_face st) st (mFaces p_ai_mesh).

(** Body of the mesh loop (lines 120-187).  The result of [Get] is not
    looked at; [ai_color] starts as black. *)
Definition load_mesh (p_scene : aiScene) (mesh_num : nat) (p_ai_mesh : aiMesh)
    (st : Buffers) : option Buffers :=
  let st := update_mesh mesh_num (set_vertex_base (to_u32 (size (vertexes st)))) st in
  let st := update_mesh mesh_num (set_index_base (to_u32 (size (indexes st)))) st in
  let st := update_mesh mesh_num (set_vertex_count (mNumVertices p_ai_mesh)) st in
  material ← mMaterials p_scene !! N.to_nat (mMaterialIndex p_ai_mesh);
  let ai_color := aiColor3D.mk float_zero float_zero float_zero in
  let ai_color := snd (Get material ai_color) in
  let st := update_mesh mesh_num
              (set_color (vec3.mk (aiColor3D.r ai_color) (aiColor3D.g ai_color)
                                  (aiColor3D.b ai_color))) st in
  let st := load_vertexes p_ai_mesh st in
  let index_base := to_u32 (size (indexes st)) in
  Some (load_faces index_base mesh_num p_ai_mesh st).

(** The mesh loop from [mesh_num] on, over the meshes still to visit. *)
Fixpoint load_meshes (p_scene : aiScene) (mesh_num : nat) (todo : list aiMesh)
    (st : Buffers) : option Buffers :=
  match todo with
  | [] => Some st
  | p_ai_mesh :: todo' =>
      st' ← load_mesh p_scene mesh_num p_ai_mesh st;
      load_meshes p_scene (S mesh_num) todo' st'
  end.

(** Lines 99-187: the vectors start empty, [meshes] is resized to
    [mNumMeshes] and the loop runs over every mesh of the scene. *)
Definition flatten (p_scene : aiScene) : option Buffers :=
  load_meshes p_scene 0 (mMeshes p_scene)
    {| meshes := replicate (length (mMeshes p_scene)) Mesh_zero;
       vertexes := [];
       indexes := [] |}.

(** ** The binary writer (lines 33-43 and 211-245) *)

(** The byte order of the host: [write] copies the object representation of
    a [uint32_t], whose bytes are in this order. *)
Inductive byte_order : Type := little_endian | big_endian.

Definition u32_bytes (host : byte_order) (ui : N) : list byte :=
  match host with
  | little_endian => le_split 4 (Z.of_N ui)
  | big_endian => rev (le_split 4 (Z.of_N ui))
  end.

(** The output stream, as the sequence of bytes handed to it so far. *)
Definition ofstream : Type := list byte.

Definition write (output_file : ofstream) (s : list byte) : ofstream :=
  output_file ++ s.

(** [write_to_file(std::ofstream&, const uint32_t&)]. *)
Definition write_to_file_u32 (host : byte_order) (output_file : ofstream) (ui : N)
    : ofstream :=
  write output_file (u32_bytes host ui).

(** [write_to_file(std::ofstream&, const glm::vec3&)]. *)
Definition write_to_file_vec3 (output_file : ofstream) (vector : vec3) : ofstream :=
  let output_file := write output_file (float_bytes (vec3.x vector)) in
  let output_file := write output_file (float_bytes (vec3.y vector)) in
  write output_file (float_bytes (vec3.z vector)).

Definition save_mesh (host : byte_order) (output_file : ofstream) (mesh : Mesh)
    : ofstream :=
  let output_file := write_to_file_vec3 output_file (color mesh) in
  let output_file := write_to_file_u32 host output_file (vertex_base mesh) in
  let output_file := write_to_file_u32 host output_file (vertex_count mesh) in
  let output_file := write_to_file_u32 host output_file (index_base mesh) in
  write_to_file_u32 host output_file (index_count mesh).

(** Lines 212-225. *)
Definition save_meshes (host : byte_order) (meshes : list Mesh) (output_file : ofstream)
    : ofstream :=
  let meshes_count := to_u32 (size meshes) in
  let output_file := write_to_file_u32 host output_file meshes_count in
  foldl (save_mesh host) output_file meshes.

Definition save_vertex (output_file : ofstream) (vertex : Vertex) : ofstream :=
  let output_file := write_to_file_vec3 output_file (position vertex) in
  write_to_file_vec3 output_file (normal vertex).

(** Lines 228-237. *)
Definition save_vertexes (host : byte_order) (vertexes : list Vertex)
    (output_file : ofstream) : ofstream :=
  let vertex_count := to_u32 (size vertexes) in
  let output_file := write_to_file_u32 host output_file vertex_count in
  foldl save_vertex output_file vertexes.

(** Lines 240-245. *)
Definition save_indexes (host : byte_order) (indexes : list N) (output_file : ofstream)
    : ofstream :=
  let index_count := to_u32 (size indexes) in
  let output_file := write_to_file_u32 host output_file index_count in
  foldl (write_to_file_u32 host) output_file indexes.

(** Lines 211-245: the three blocks, one after the other. *)
Definition save (host : byte_order) (st : Buffers) (output_file : ofstream) : ofstream :=
  let output_file := save_meshes host (meshes st) output_file in
  let output_file := save_vertexes host (vertexes st) output_file in
  save_indexes host (indexes st) output_file.

(** ** [main] (lines 45-249) *)

(** The options [po::parse_command_line] found on the command line. *)
Record variables_map : Type := {
  opt_help : bool;
  opt_source : option string;
  opt_out : option string
}.

(** What the import service answers: the scene [Importer::ReadFile] returns
    for a path ([None] is the null pointer) and the string
    [aiGetErrorString] gives. *)
Record import_service : Type := {
  ReadFile : string -> option aiScene;
  aiGetErrorString : string
}.

(** One item sent to [std::cout]: the description of the options (line
    67), a message given by its characters, or the summary of the buffers
    (lines 193-209), whose rendering of numbers is left abstract. *)
Inductive text : Type :=
| usage
| literal (s : string)
| model_info (st : Buffers).

(** The end of a line, written ["\n"] or [std::endl] in the source. *)
Definition endl : string := String (ascii_of_nat 10) EmptyString.

Inductive termination : Type :=
| returned (status : Z)
| undefined_behaviour.

(** What a run of [main] did: its output, the path [output_file.open] was
    called with, the path handed to the importer, the bytes written to the
    output file and how the run ended. *)
Record run : Type := {
  cout : list text;
  opened : option string;
  imported : option string;
  output_file : ofstream;
  exit : termination
}.

(** The block "Export file" (lines 95-246), reached with both options set. *)
Definition export_file (host : byte_order) (service : import_service)
    (file_path out_path : string) : run :=
  match ReadFile service file_path with
  | None =>
      {| cout := [literal ("Failed to load model. Assimp error: "
                           ++ aiGetErrorString service ++ endl)%string];
         opened := Some out_path; imported := Some file_path;
         output_file := []; exit := returned 0 |}
  | Some p_scene =>
      match flatten p_scene with
      | None =>
          {| cout := []; opened := Some out_path; imported := Some file_path;
             output_file := []; exit := undefined_behaviour |}
      | Some st =>
          {| cout := [model_info st];
             opened := Some out_path; imported := Some file_path;
             output_file := save host st [];
             exit := returned 0 |}
      end
  end.

Definition main (host : byte_order) (service : import_service) (vm : variables_map)
    : run :=
  if opt_help vm then
    {| cout := [usage]; opened := None; imported := None;
       output_file := []; exit := returned 0 |}
  else
    let source_missing :=
      match opt_source vm with
      | Some _ => []
      | None => [literal ("Source was not set." ++ endl)%string]
      end in
    let out_missing :=
      match opt_out vm with
      | Some _ => []
      | None => [literal ("Output was not set." ++ endl)%string]
      end in
    match opt_source vm, opt_out vm with
    | Some file_path, Some out_path => export_file host service file_path out_path
    | _, _ =>
        {| cout := source_missing ++ out_missing;
           opened := opt_out vm; imported := None;
           output_file := []; exit := returned 0 |}
    end.

(** ** Reading the file back, following the documented layout *)

Definition parser (A : Type) : Type := list byte -> option (A * list byte).

Definition u32_of_bytes (host : byte_order) (bs : list byte) : N :=
  match host with
  | little_endian => Z.to_N (le_combine bs)
  | big_endian => Z.to_N (le_combine (rev bs))
  end.

Definition read_u32 (host : byte_order) : parser N := fun bs =>
  match bs with
  | b0 :: b1 :: b2 :: b3 :: rest => Some (u32_of_bytes host [b0; b1; b2; b3], rest)
  | _ => None
  end.

Definition read_f32 : parser float := fun bs =>
  match bs with
  | b0 :: b1 :: b2 :: b3 :: rest => Some (Float b0 b1 b2 b3, rest)
  | _ => None
  end.

Definition read_vec3 : parser vec3 := fun bs =>
  '(x, bs) ← read_f32 bs;
  '(y, bs) ← read_f32 bs;
  '(z, bs) ← read_f32 bs;
  Some (vec3.mk x y z, bs).

(** A mesh record of the layout: the colour, then the four counters. *)
Definition read_mesh (host : byte_order) : parser Mesh := fun bs =>
  '(c, bs) ← read_vec3 bs;
  '(vb, bs) ← read_u32 host bs;
  '(vc, bs) ← read_u32 host bs;
  '(ib, bs) ← read_u32 host bs;
  '(ic, bs) ← read_u32 host bs;
  Some ({| color := c; vertex_base := vb; vertex_count := vc;
           index_base := ib; index_count := ic |}, bs).

(** A vertex record of the layout: the position, then the normal. *)
Definition read_vertex : parser Vertex := fun bs =>
  '(p, bs) ← read_vec3 bs;
  '(n, bs) ← read_vec3 bs;
  Some ({| position := p; normal := n |}, bs).

(** "repeat n times". *)
Fixpoint read_repeat {A : Type} (p : parser A) (n : nat) : parser (list A) := fun bs =>
  match n with
  | O => Some ([], bs)
  | S n' =>
      '(a, bs) ← p bs;
      '(l, bs) ← read_repeat p n' bs;
      Some (a :: l, bs)
  end.

(** A section of the layout: a count, then that many records. *)
Definition read_section {A : Type} (host : byte_order) (p : parser A) : parser (list A) :=
  fun bs =>
  '(n, bs) ← read_u32 host bs;
  read_repeat p (N.to_nat n) bs.

(** The whole file: the mesh, vertex and index sections, and what is left. *)
Definition read_file (host : byte_order) : parser Buffers := fun bs =>
  '(ms, bs) ← read_section host (read_mesh host) bs;
  '(vs, bs) ← read_section host read_vertex bs;
  '(ixs, bs) ← read_section host (read_u32 host) bs;
  Some ({| meshes := ms; vertexes := vs; indexes := ixs |}, bs).

(** ** The example of the specification, section 8 *)

Definition f32_one : float := Float Byte.x00 Byte.x00 Byte.x80 Byte.x3f.

Definition pt (a b c : float) : aiVector3D := aiVector3D.mk a b c.

(** Submesh A: 4 vertices, 2 triangles, diffuse (1,0,0). *)
Definition submesh_A : aiMesh :=
  {| mVertices := [pt float_zero float_zero float_zero; pt f32_one float_zero float_zero;
                   pt f32_one f32_one float_zero; pt float_zero f32_one float_zero];
     mNormals := None; mTextureCoords0 := None;
     mFaces := [ {| mIndices := [0; 1; 2] |}; {| mIndices := [0; 2; 3] |} ];
     mMaterialIndex := 0 |}.

(** Submesh B: 3 vertices, 1 triangle and 1 quad, no diffuse colour. *)
Definition submesh_B : aiMesh :=
  {| mVertices := [pt float_zero float_zero f32_one; pt f32_one float_zero f32_one;
                   pt f32_one f32_one f32_one];
     mNormals := Some [pt float_zero float_zero f32_one; pt float_zero float_zero f32_one;
                       pt float_zero float_zero f32_one];
     mTextureCoords0 := None;
     mFaces := [ {| mIndices := [0; 1; 2] |}; {| mIndices := [0; 1; 2; 0] |} ];
     mMaterialIndex := 1 |}.

Definition scene_AB : aiScene :=
  {| mMeshes := [submesh_A; submesh_B];
     mMaterials := [ {| color_diffuse := Some (aiColor3D.mk f32_one float_zero float_zero) |};
                     {| color_diffuse := None |} ] |}.

(** The buffers the flattener builds for [scene_AB]. *)
Definition buffers_AB : Buffers :=
  Eval vm_compute in
    default {| meshes := []; vertexes := []; indexes := [] |} (flatten scene_AB).

(** ** What the loops compute, in closed form *)

(** The vertex the loop stores for a source position. *)
Definition mk_vertex (p_position : aiVector3D) : Vertex :=
  {| position := vec3.mk (aiVector3D.x p_position) (aiVector3D.y p_position)
                         (aiVector3D.z p_position);
     normal := vec3_default |}.

Definition is_triangle (f : aiFace) : bool := mNumIndices f =? 3.

(** The number of faces of a mesh with exactly three indices. *)
Definition triangle_count (faces : list aiFace) : N := size (List.filter is_triangle faces).

(** The entries one face adds to the index pool. *)
Definition face_indexes (index_base : N) (f : aiFace) : list N :=
  if is_triangle f then
    [to_u32 (index_base + nth 0 (mIndices f) 0);
     to_u32 (index_base + nth 1 (mIndices f) 0);
     to_u32 (index_base + nth 2 (mIndices f) 0)]
  else [].

(** The colour a mesh record gets from its material. *)
Definition material_color (mat : aiMaterial) : vec3 :=
  match color_diffuse mat with
  | Some c => vec3.mk (aiColor3D.r c) (aiColor3D.g c) (aiColor3D.b c)
  | None => vec3.mk float_zero float_zero float_zero
  end.

(** The record of a mesh visited when the pools hold [nv] vertices and
    [ni] indices. *)
Definition mesh_record (mat : aiMaterial) (m : aiMesh) (nv ni : N) : Mesh :=
  {| color := material_color mat;
     vertex_base := to_u32 nv;
     vertex_count := mNumVertices m;
     index_base := to_u32 ni;
     index_count := to_u32 (3 * triangle_count (mFaces m)) |}.

Definition total_vertices (ms : list aiMesh) : N :=
  foldr (fun m acc => mNumVertices m + acc) 0 ms.

Definition total_indexes (ms : list aiMesh) : N :=
  foldr (fun m acc => 3 * triangle_count (mFaces m) + acc) 0 ms.

(** The flattener as a function of the meshes still to visit and of the
    two pools. *)
Fixpoint flatten_from (p_scene : aiScene) (todo : list aiMesh)
    (vs : list Vertex) (ixs : list N) : option (list Mesh * list Vertex * list N) :=
  match todo with
  | [] => Some ([], vs, ixs)
  | m :: todo' =>
      mat ← mMaterials p_scene !! N.to_nat (mMaterialIndex m);
      '(recs, vs', ixs') ←
        flatten_from p_scene todo'
          (vs ++ map mk_vertex (mVertices m))
          (ixs ++ flat_map (face_indexes (to_u32 (size ixs))) (mFaces m));
      Some (mesh_record mat m (size vs) (size ixs) :: recs, vs', ixs')
  end.

(** Every material index of the scene is within the material table. *)
Definition material_indices_valid (p_scene : aiScene) : Prop :=
  Forall (fun m => (N.to_nat (mMaterialIndex m) < length (mMaterials p_scene))%nat)
         (mMeshes p_scene).

(** ** The documented layout of the file *)

Definition vec3_bytes (v : vec3) : list byte :=
  float_bytes (vec3.x v) ++ float_bytes (vec3.y v) ++ float_bytes (vec3.z v).

(** A mesh record: the colour as three f32, then [vertex_base],
    [vertex_count], [index_base], [index_count] as u32. *)
Definition mesh_bytes (host : byte_order) (m : Mesh) : list byte :=
  vec3_bytes (color m) ++ u32_bytes host (vertex_base m) ++
  u32_bytes host (vertex_count m) ++ u32_bytes host (index_base m) ++
  u32_bytes host (index_count m).

(** A vertex record: the position, then the normal. *)
Definition vertex_bytes (v : Vertex) : list byte :=
  vec3_bytes (position v) ++ vec3_bytes (normal v).

(** The file: each count field, then the records of its section. *)
Definition file_layout (host : byte_order) (mesh_count vertex_count_total
    index_count_total : N) (ms : list Mesh) (vs : list Vertex) (ixs : list N)
    : list byte :=
  u32_bytes host mesh_count ++ flat_map (mesh_bytes host) ms ++
  u32_bytes host vertex_count_total ++ flat_map vertex_bytes vs ++
  u32_bytes host index_count_total ++ flat_map (u32_bytes host) ixs.

(** ** Scenes at the limits of the 32-bit counters *)

Definition origin : aiVector3D := pt float_zero float_zero float_zero.

(** A mesh of [2^30] vertices and no face. *)
Definition mesh_2_30 : aiMesh :=
  {| mVertices := replicate (N.to_nat (2 ^ 30)) origin;
     mNormals := None; mTextureCoords0 := None;
     mFaces := [];
     mMaterialIndex := 0 |}.

(** Five such meshes: [5 * 2^30] vertices in all. *)
Definition scene_5x2_30 : aiScene :=
  {| mMeshes := [mesh_2_30; mesh_2_30; mesh_2_30; mesh_2_30; mesh_2_30];
     mMaterials := [ {| color_diffuse := None |} ] |}.

(** A mesh of 1431655766 triangles over three vertices; three times that
    number is [2^32 + 2]. *)
Definition mesh_many_triangles : aiMesh :=
  {| mVertices := [origin; origin; origin];
     mNormals := None; mTextureCoords0 := None;
     mFaces := replicate (N.to_nat 1431655766) {| mIndices := [0; 1; 2] |};
     mMaterialIndex := 0 |}.

Definition scene_many_triangles : aiScene :=
  {| mMeshes := [mesh_many_triangles];
     mMaterials := [ {| color_diffuse := None |} ] |}.

(** ** Scenes compared and transformed *)

(** Two meshes with the same positions, faces and material index; their
    normals and texture coordinates may differ. *)
Definition same_geometry (m1 m2 : aiMesh) : Prop :=
  mVertices m1 = mVertices m2 /\ mFaces m1 = mFaces m2 /\
  mMaterialIndex m1 = mMaterialIndex m2.

(** A mesh without its faces of other than three indices. *)
Definition drop_non_triangles_mesh (m : aiMesh) : aiMesh :=
  {| mVertices := mVertices m;
     mNormals := mNormals m;
     mTextureCoords0 := mTextureCoords0 m;
     mFaces := List.filter is_triangle (mFaces m);
     mMaterialIndex := mMaterialIndex m |}.

Definition drop_non_triangles (s : aiScene) : aiScene :=
  {| mMeshes := map drop_non_triangles_mesh (mMeshes s);
     mMaterials := mMaterials s |}.

(** The sum of the [vertex_count] fields of a list of records. *)
Definition sum_vertex_count (ms : list Mesh) : N :=
  foldr (fun r acc => vertex_count r + acc) 0 ms.

(** * Properties *)

(** ** The loops and their closed forms *)

Lemma size_app {A : Type} (l k : list A) : size (l ++ k) = size l + size k.
Proof. unfold size. rewrite length_app. lia. Qed.

Lemma size_cons {A : Type} (a : A) (l : list A) : size (a :: l) = 1 + size l.
Proof. unfold size. cbn [length]. lia. Qed.

Lemma to_u32_lt (n : N) : to_u32 n < 2 ^ 32.
Proof. unfold to_u32. lia. Qed.

Lemma to_u32_small (n : N) : n < 2 ^ 32 -> to_u32 n = n.
Proof. unfold to_u32. lia. Qed.

Lemma load_vertexes_spec (m : aiMesh) (st : Buffers) :
  load_vertexes m st =
  {| meshes := meshes st;
     vertexes := vertexes st ++ map mk_vertex (mVertices m);
     indexes := indexes st |}.
Proof.
  unfold load_vertexes. generalize (mVertices m) as ps.
  intros ps. revert st. induction ps as [|p ps IH]; intros st; cbn [foldl map].
  - rewrite app_nil_r. by destruct st.
  - rewrite IH. unfold load_vertex, push_vertex. cbn [meshes vertexes indexes].
    fold (mk_vertex p). by rewrite <- app_assoc.
Qed.

Lemma triangle_count_cons (f : aiFace) (faces : list aiFace) :
  triangle_count (f :: faces) =
  (if is_triangle f then 1 else 0) + triangle_count faces.
Proof.
  unfold triangle_count. cbn [List.filter].
  destruct (is_triangle f); [rewrite size_cons|]; lia.
Qed.

(** The face loop, run on a state whose record [mesh_num] is [r]. *)
Lemma load_faces_loop (index_base : N) (faces : list aiFace) :
  forall (done : list Mesh) (r : Mesh) (rest : list Mesh) (vs : list Vertex) (ixs : list N),
    index_count r < 2 ^ 32 ->
    foldl (fun st ai_face => load_face index_base (length done) ai_face st)
          {| meshes := done ++ r :: rest; vertexes := vs; indexes := ixs |} faces =
    {| meshes := done ++ set_index_count
                           (to_u32 (index_count r + 3 * triangle_count faces)) r :: rest;
       vertexes := vs;
       indexes := ixs ++ flat_map (face_indexes index_base) faces |}.
Proof.
  induction faces as [|f faces IH]; intros done r rest vs ixs Hr; cbn [foldl flat_map].
  - rewrite app_nil_r. change (triangle_count []) with 0.
    replace (index_count r + 3 * 0) with (index_count r) by lia.
    rewrite to_u32_small by done. by destruct r.
  - rewrite triangle_count_cons. unfold load_face at 2, face_indexes at 1.
    fold (is_triangle f). destruct (is_triangle f); cbn [negb].
    + unfold push_index, update_mesh; cbn [meshes vertexes indexes].
      rewrite alter_app_r_alt by lia. rewrite Nat.sub_diag. cbn [alter list_alter].
      rewrite IH by (cbn; apply to_u32_lt).
      cbn [index_count set_index_count]. f_equal.
      * do 2 f_equal. unfold set_index_count; cbn. f_equal. unfold to_u32. lia.
      * by rewrite <- !app_assoc.
    + rewrite IH by done. rewrite app_nil_l, N.add_0_l. done.
Qed.

(** One turn of the mesh loop, run on a state whose record [mesh_num] is
    still the value-initialised one. *)
Lemma load_mesh_spec (p_scene : aiScene) (m : aiMesh)
    (done rest : list Mesh) (vs : list Vertex) (ixs : list N) :
  load_mesh p_scene (length done) m
    {| meshes := done ++ Mesh_zero :: rest; vertexes := vs; indexes := ixs |} =
  mat ← mMaterials p_scene !! N.to_nat (mMaterialIndex m);
  Some {| meshes := done ++ mesh_record mat m (size vs) (size ixs) :: rest;
          vertexes := vs ++ map mk_vertex (mVertices m);
          indexes := ixs ++ flat_map (face_indexes (to_u32 (size ixs))) (mFaces m) |}.
Proof.
  unfold load_mesh.
  destruct (mMaterials p_scene !! N.to_nat (mMaterialIndex m)) as [mat|]; [|done].
  cbn [mbind option_bind]. f_equal.
  unfold update_mesh; cbn [meshes vertexes indexes].
  rewrite !alter_app_r_alt by (rewrite ?length_app; lia).
  rewrite !Nat.sub_diag. cbn [alter list_alter].
  rewrite load_vertexes_spec; cbn [meshes vertexes indexes].
  unfold load_faces. rewrite load_faces_loop by (cbn; lia).
  do 3 f_equal. unfold mesh_record, Get, material_color, set_index_count; cbn.
  destruct (color_diffuse mat); cbn; do 2 f_equal; unfold to_u32; lia.
Qed.

Lemma load_meshes_spec (p_scene : aiScene) (todo : list aiMesh) :
  forall (done : list Mesh) (vs : list Vertex) (ixs : list N),
    load_meshes p_scene (length done) todo
      {| meshes := done ++ replicate (length todo) Mesh_zero;
         vertexes := vs; indexes := ixs |} =
    '(recs, vs', ixs') ← flatten_from p_scene todo vs ixs;
    Some {| meshes := done ++ recs; vertexes := vs'; indexes := ixs' |}.
Proof.
  induction todo as [|m todo IH]; intros done vs ixs;
    cbn [load_meshes flatten_from length replicate].
  - done.
  - rewrite load_mesh_spec.
    destruct (mMaterials p_scene !! N.to_nat (mMaterialIndex m)) as [mat|]; [|done].
    cbn [mbind option_bind].
    rewrite cons_middle, app_assoc.
    replace (S (length done)) with (length (done ++ [mesh_record mat m (size vs) (size ixs)]))
      by (rewrite length_app; cbn; lia).
    rewrite IH.
    destruct (flatten_from _ _ _ _) as [[[recs vs'] ixs']|]; [|done].
    cbn. by rewrite <- app_assoc.
Qed.

(** The flattener is [flatten_from], started on empty pools. *)
Lemma flatten_spec (p_scene : aiScene) :
  flatten p_scene =
  '(recs, vs, ixs) ← flatten_from p_scene (mMeshes p_scene) [] [];
  Some {| meshes := recs; vertexes := vs; indexes := ixs |}.
Proof.
  unfold flatten. apply (load_meshes_spec p_scene (mMeshes p_scene) [] [] []).
Qed.

Lemma size_face_indexes (index_base : N) (faces : list aiFace) :
  size (flat_map (face_indexes index_base) faces) = 3 * triangle_count faces.
Proof.
  induction faces as [|f faces IH]; [done|].
  cbn [flat_map]. rewrite size_app, IH, triangle_count_cons.
  unfold face_indexes. destruct (is_triangle f); unfold size; cbn [length]; lia.
Qed.

Lemma size_map {A B : Type} (f : A -> B) (l : list A) : size (map f l) = size l.
Proof. unfold size. by rewrite length_map. Qed.

Lemma total_vertices_snoc (ms : list aiMesh) (m : aiMesh) :
  total_vertices (ms ++ [m]) = total_vertices ms + mNumVertices m.
Proof.
  induction ms as [|a ms IH]; cbn [app total_vertices foldr]; [lia|].
  fold (total_vertices (ms ++ [m])). fold (total_vertices ms). lia.
Qed.

Lemma total_indexes_snoc (ms : list aiMesh) (m : aiMesh) :
  total_indexes (ms ++ [m]) = total_indexes ms + 3 * triangle_count (mFaces m).
Proof.
  induction ms as [|a ms IH]; cbn [app total_indexes foldr]; [lia|].
  fold (total_indexes (ms ++ [m])). fold (total_indexes ms). lia.
Qed.

(** What [flatten_from] returns, read off its recursion. *)
Lemma flatten_from_inv (p_scene : aiScene) (todo : list aiMesh) :
  forall (vs : list Vertex) (ixs : list N) recs vs' ixs',
    flatten_from p_scene todo vs ixs = Some (recs, vs', ixs') ->
    length recs = length todo /\
    vs' = vs ++ flat_map (fun m => map mk_vertex (mVertices m)) todo /\
    size vs' = size vs + total_vertices todo /\
    size ixs' = size ixs + total_indexes todo /\
    forall (k : nat) (m : aiMesh),
      todo !! k = Some m ->
      exists mat,
        mMaterials p_scene !! N.to_nat (mMaterialIndex m) = Some mat /\
        recs !! k = Some (mesh_record mat m (size vs + total_vertices (take k todo))
                                            (size ixs + total_indexes (take k todo))).
Proof.
  induction todo as [|m todo IH]; intros vs ixs recs vs' ixs' H; cbn [flatten_from] in H.
  - injection H as <- <- <-. cbn. rewrite app_nil_r.
    repeat split; try lia. intros k m Hk. by rewrite lookup_nil in Hk.
  - destruct (mMaterials p_scene !! N.to_nat (mMaterialIndex m)) as [mat|] eqn:Hmat;
      [|done].
    cbn [mbind option_bind] in H.
    destruct (flatten_from _ _ _ _) as [[[recs0 vs0] ixs0]|] eqn:Hrec; [|done].
    cbn in H. injection H as <- <- <-.
    apply IH in Hrec as (Hlen & Hvs & Hnv & Hni & Hlook).
    rewrite size_app, size_map in Hnv. rewrite size_app, size_face_indexes in Hni.
    repeat split.
    + cbn. by rewrite Hlen.
    + rewrite Hvs. cbn [flat_map]. by rewrite app_assoc.
    + rewrite Hnv. cbn [total_vertices foldr]. fold (total_vertices todo).
      unfold mNumVertices. lia.
    + rewrite Hni. cbn [total_indexes foldr]. fold (total_indexes todo). lia.
    + intros [|k] m' Hk.
      * cbn in Hk. injection Hk as <-. exists mat. split; [done|].
        cbn. by rewrite !N.add_0_r.
      * cbn in Hk. destruct (Hlook k m' Hk) as (mat' & Hmat' & Hr).
        exists mat'. split; [done|]. cbn [take].
        transitivity (recs0 !! k); [done|]. rewrite Hr. do 2 f_equal.
        -- rewrite size_app, size_map. cbn [total_vertices foldr].
           fold (total_vertices (take k todo)). unfold mNumVertices. lia.
        -- rewrite size_app, size_face_indexes. cbn [total_indexes foldr].
           fold (total_indexes (take k todo)). lia.
Qed.

(** [flatten_from] answers exactly when every material index it meets is
    within the material table. *)
Lemma flatten_from_is_Some (p_scene : aiScene) (todo : list aiMesh) :
  forall (vs : list Vertex) (ixs : list N),
    is_Some (flatten_from p_scene todo vs ixs) <->
    Forall (fun m => (N.to_nat (mMaterialIndex m) < length (mMaterials p_scene))%nat) todo.
Proof.
  induction todo as [|m todo IH]; intros vs ixs; cbn [flatten_from].
  - split; [constructor|by eexists].
  - rewrite Forall_cons, <- lookup_lt_is_Some.
    destruct (mMaterials p_scene !! N.to_nat (mMaterialIndex m)) as [mat|];
      cbn [mbind option_bind].
    + rewrite <- (IH (vs ++ map mk_vertex (mVertices m))
                     (ixs ++ flat_map (face_indexes (to_u32 (size ixs))) (mFaces m))).
      destruct (flatten_from _ _ _ _) as [[[recs vs'] ixs']|]; cbn.
      * split; [intros _; split; by eexists|by eexists].
      * split; [intros []; done|intros [_ []]; done].
    + split; [intros []; done|intros [[] _]; done].
Qed.

Section Flattened.

Variable p_scene : aiScene.
Variable st : Buffers.
Hypothesis Hflat : flatten p_scene = Some st.

Lemma flatten_from_flattened :
  flatten_from p_scene (mMeshes p_scene) [] [] =
  Some (meshes st, vertexes st, indexes st).
Proof using Hflat.
  rewrite flatten_spec in Hflat.
  destruct (flatten_from _ _ _ _) as [[[recs vs] ixs]|]; [|done].
  cbn in Hflat. by injection Hflat as <-.
Qed.

Lemma flatten_length_meshes : length (meshes st) = length (mMeshes p_scene).
Proof using Hflat. by destruct (flatten_from_inv _ _ _ _ _ _ _ flatten_from_flattened). Qed.

Lemma flatten_size_meshes : size (meshes st) = mNumMeshes p_scene.
Proof using Hflat. unfold size, mNumMeshes, size. by rewrite flatten_length_meshes. Qed.

Lemma flatten_vertexes :
  vertexes st = flat_map (fun m => map mk_vertex (mVertices m)) (mMeshes p_scene).
Proof using Hflat.
  by destruct (flatten_from_inv _ _ _ _ _ _ _ flatten_from_flattened) as (_ & -> & _).
Qed.

Lemma flatten_size_vertexes : size (vertexes st) = total_vertices (mMeshes p_scene).
Proof using Hflat.
  by destruct (flatten_from_inv _ _ _ _ _ _ _ flatten_from_flattened) as (_ & _ & -> & _).
Qed.

Lemma flatten_size_indexes : size (indexes st) = total_indexes (mMeshes p_scene).
Proof using Hflat.
  by destruct (flatten_from_inv _ _ _ _ _ _ _ flatten_from_flattened)
    as (_ & _ & _ & -> & _).
Qed.

(** The record of the [k]-th mesh. *)
Lemma flatten_lookup (k : nat) (m : aiMesh) :
  mMeshes p_scene !! k = Some m ->
  exists mat,
    mMaterials p_scene !! N.to_nat (mMaterialIndex m) = Some mat /\
    meshes st !! k =
    Some (mesh_record mat m (total_vertices (take k (mMeshes p_scene)))
                            (total_indexes (take k (mMeshes p_scene)))).
Proof using Hflat.
  intros Hk.
  destruct (flatten_from_inv _ _ _ _ _ _ _ flatten_from_flattened)
    as (_ & _ & _ & _ & Hlook).
  destruct (Hlook k m Hk) as (mat & Hmat & Hr). exists mat. split; [done|].
  rewrite Hr. do 2 f_equal; unfold size; cbn; lia.
Qed.

End Flattened.

Lemma flatten_is_Some (p_scene : aiScene) :
  is_Some (flatten p_scene) <-> material_indices_valid p_scene.
Proof.
  unfold material_indices_valid.
  rewrite <- (flatten_from_is_Some p_scene (mMeshes p_scene) [] []), flatten_spec.
  destruct (flatten_from _ _ _ _) as [[[recs vs] ixs]|]; cbn.
  - split; by eexists.
  - split; intros []; done.
Qed.

(** ** The writer and the layout *)

Lemma write_to_file_vec3_spec (out : ofstream) (v : vec3) :
  write_to_file_vec3 out v = out ++ vec3_bytes v.
Proof. unfold write_to_file_vec3, write, vec3_bytes. by rewrite <- !app_assoc. Qed.

Lemma save_mesh_spec (host : byte_order) (out : ofstream) (m : Mesh) :
  save_mesh host out m = out ++ mesh_bytes host m.
Proof.
  unfold save_mesh, write_to_file_u32, write, mesh_bytes.
  rewrite write_to_file_vec3_spec. by rewrite <- !app_assoc.
Qed.

Lemma save_vertex_spec (out : ofstream) (v : Vertex) :
  save_vertex out v = out ++ vertex_bytes v.
Proof.
  unfold save_vertex, vertex_bytes. rewrite !write_to_file_vec3_spec.
  by rewrite <- !app_assoc.
Qed.

(** A loop that appends the bytes of each element appends their
    concatenation. *)
Lemma foldl_append {A : Type} (f : ofstream -> A -> ofstream) (enc : A -> list byte) :
  (forall out a, f out a = out ++ enc a) ->
  forall (l : list A) (out : ofstream), foldl f out l = out ++ flat_map enc l.
Proof.
  intros Hf l. induction l as [|a l IH]; intros out; cbn [foldl flat_map].
  - by rewrite app_nil_r.
  - by rewrite IH, Hf, <- app_assoc.
Qed.

(** What [save] appends, with the count fields as the code computes them. *)
Lemma save_layout (host : byte_order) (st : Buffers) (out : ofstream) :
  save host st out =
  out ++ file_layout host (to_u32 (size (meshes st))) (to_u32 (size (vertexes st)))
           (to_u32 (size (indexes st))) (meshes st) (vertexes st) (indexes st).
Proof.
  unfold save, save_meshes, save_vertexes, save_indexes, file_layout.
  rewrite (foldl_append _ (mesh_bytes host)) by apply save_mesh_spec.
  rewrite (foldl_append _ vertex_bytes) by apply save_vertex_spec.
  rewrite (foldl_append _ (u32_bytes host)) by done.
  unfold write_to_file_u32, write. by rewrite <- !app_assoc.
Qed.

(** ** Encoding and decoding of a [uint32_t] *)

Lemma u32_of_bytes_u32_bytes (host : byte_order) (n : N) :
  u32_of_bytes host (u32_bytes host n) = to_u32 n.
Proof.
  assert (H : Z.to_N (le_combine (le_split 4 (Z.of_N n))) = to_u32 n).
  { rewrite le_combine_split. unfold to_u32.
    change (2 ^ (Z.of_nat 4 * 8))%Z with (Z.of_N (2 ^ 32)). lia. }
  destruct host; unfold u32_of_bytes, u32_bytes; [|rewrite rev_involutive]; exact H.
Qed.

Lemma length_u32_bytes (host : byte_order) (n : N) : length (u32_bytes host n) = 4%nat.
Proof. destruct host; unfold u32_bytes; rewrite ?length_rev; apply length_le_split. Qed.

Lemma read_u32_spec (host : byte_order) (n : N) (rest : list byte) :
  read_u32 host (u32_bytes host n ++ rest) = Some (to_u32 n, rest).
Proof.
  rewrite <- (u32_of_bytes_u32_bytes host n).
  pose proof (length_u32_bytes host n) as Hlen.
  destruct (u32_bytes host n) as [|b0 [|b1 [|b2 [|b3 [|b4 bs]]]]]; try discriminate Hlen.
  reflexivity.
Qed.

Lemma read_u32_bound (host : byte_order) (bs rest : list byte) (n : N) :
  read_u32 host bs = Some (n, rest) -> n < 2 ^ 32.
Proof.
  unfold read_u32.
  destruct bs as [|b0 [|b1 [|b2 [|b3 bs]]]]; try discriminate.
  intros H. injection H as <- _. unfold u32_of_bytes.
  destruct host.
  - pose proof (le_combine_bound [b0; b1; b2; b3]) as Hb.
    change (2 ^ (8 * Z.of_nat (length [b0; b1; b2; b3])))%Z with (Z.of_N (2 ^ 32)) in Hb.
    lia.
  - pose proof (le_combine_bound (rev [b0; b1; b2; b3])) as Hb.
    change (2 ^ (8 * Z.of_nat (length (rev [b0; b1; b2; b3]))))%Z
      with (Z.of_N (2 ^ 32)) in Hb.
    lia.
Qed.

Lemma read_f32_spec (f : float) (rest : list byte) :
  read_f32 (float_bytes f ++ rest) = Some (f, rest).
Proof. by destruct f. Qed.

Lemma read_vec3_spec (v : vec3) (rest : list byte) :
  read_vec3 (vec3_bytes v ++ rest) = Some (v, rest).
Proof.
  unfold read_vec3, vec3_bytes. rewrite <- !app_assoc.
  rewrite read_f32_spec; cbn [mbind option_bind].
  rewrite read_f32_spec; cbn [mbind option_bind].
  rewrite read_f32_spec; cbn [mbind option_bind].
  by destruct v.
Qed.

Lemma read_mesh_spec (host : byte_order) (m : Mesh) (rest : list byte) :
  vertex_base m < 2 ^ 32 -> vertex_count m < 2 ^ 32 ->
  index_base m < 2 ^ 32 -> index_count m < 2 ^ 32 ->
  read_mesh host (mesh_bytes host m ++ rest) = Some (m, rest).
Proof.
  intros Hvb Hvc Hib Hic. unfold read_mesh, mesh_bytes. rewrite <- !app_assoc.
  rewrite read_vec3_spec; cbn [mbind option_bind].
  rewrite !read_u32_spec; cbn [mbind option_bind].
  rewrite !read_u32_spec; cbn [mbind option_bind].
  rewrite !read_u32_spec; cbn [mbind option_bind].
  rewrite !read_u32_spec; cbn [mbind option_bind].
  rewrite !to_u32_small by done. by destruct m.
Qed.

Lemma read_vertex_spec (v : Vertex) (rest : list byte) :
  read_vertex (vertex_bytes v ++ rest) = Some (v, rest).
Proof.
  unfold read_vertex, vertex_bytes. rewrite <- !app_assoc.
  rewrite read_vec3_spec; cbn [mbind option_bind].
  rewrite read_vec3_spec; cbn [mbind option_bind].
  by destruct v.
Qed.

Lemma read_repeat_spec {A : Type} (p : parser A) (enc : A -> list byte) (l : list A) :
  Forall (fun a => forall rest, p (enc a ++ rest) = Some (a, rest)) l ->
  forall rest, read_repeat p (length l) (flat_map enc l ++ rest) = Some (l, rest).
Proof.
  induction 1 as [|a l Ha _ IH]; intros rest; cbn [length read_repeat flat_map].
  - done.
  - rewrite <- app_assoc, Ha. cbn [mbind option_bind]. rewrite IH. done.
Qed.

Lemma read_repeat_length {A : Type} (p : parser A) (n : nat) :
  forall (bs rest : list byte) (l : list A),
    read_repeat p n bs = Some (l, rest) -> length l = n.
Proof.
  induction n as [|n IH]; intros bs rest l; cbn [read_repeat].
  - intros H. by injection H as <- _.
  - destruct (p bs) as [[a bs1]|]; [|done]. cbn [mbind option_bind].
    destruct (read_repeat p n bs1) as [[l1 bs2]|] eqn:Hrec; [|done].
    cbn. intros H. injection H as <- _. cbn. f_equal. by eapply IH.
Qed.

Lemma read_section_spec {A : Type} (host : byte_order) (p : parser A)
    (enc : A -> list byte) (l : list A) (rest : list byte) :
  size l < 2 ^ 32 ->
  Forall (fun a => forall rest, p (enc a ++ rest) = Some (a, rest)) l ->
  read_section host p (u32_bytes host (size l) ++ flat_map enc l ++ rest) = Some (l, rest).
Proof.
  intros Hsize Hl. unfold read_section. rewrite read_u32_spec.
  cbn [mbind option_bind]. rewrite to_u32_small by done.
  unfold size. rewrite Nat2N.id. by apply read_repeat_spec.
Qed.

(** A section that was read holds fewer than [2^32] records. *)
Lemma read_section_bound {A : Type} (host : byte_order) (p : parser A)
    (bs rest : list byte) (l : list A) :
  read_section host p bs = Some (l, rest) -> size l < 2 ^ 32.
Proof.
  unfold read_section.
  destruct (read_u32 host bs) as [[n bs1]|] eqn:Hn; [|done].
  cbn [mbind option_bind]. intros H.
  apply read_u32_bound in Hn. apply read_repeat_length in H.
  unfold size. rewrite H. lia.
Qed.

Lemma read_file_bound (host : byte_order) (bs rest : list byte) (st : Buffers) :
  read_file host bs = Some (st, rest) ->
  size (meshes st) < 2 ^ 32 /\ size (vertexes st) < 2 ^ 32 /\ size (indexes st) < 2 ^ 32.
Proof.
  unfold read_file.
  destruct (read_section host (read_mesh host) bs) as [[ms bs1]|] eqn:H1; [|done].
  cbn [mbind option_bind].
  destruct (read_section host read_vertex bs1) as [[vs bs2]|] eqn:H2; [|done].
  cbn [mbind option_bind].
  destruct (read_section host (read_u32 host) bs2) as [[ixs bs3]|] eqn:H3; [|done].
  cbn. intros H. injection H as <- _. cbn.
  repeat split; eapply read_section_bound; eassumption.
Qed.

(** Reading back a file laid out with counts that fit their fields. *)
Lemma read_file_layout (host : byte_order) (st : Buffers) :
  size (meshes st) < 2 ^ 32 -> size (vertexes st) < 2 ^ 32 ->
  size (indexes st) < 2 ^ 32 ->
  Forall (fun m => vertex_base m < 2 ^ 32 /\ vertex_count m < 2 ^ 32 /\
                   index_base m < 2 ^ 32 /\ index_count m < 2 ^ 32) (meshes st) ->
  Forall (fun i => i < 2 ^ 32) (indexes st) ->
  read_file host
    (file_layout host (size (meshes st)) (size (vertexes st)) (size (indexes st))
       (meshes st) (vertexes st) (indexes st)) = Some (st, []).
Proof.
  intros HM HV HI Hms Hixs. unfold read_file, file_layout.
  rewrite (read_section_spec host (read_mesh host) (mesh_bytes host)); [|done|].
  2:{ eapply Forall_impl; [exact Hms|]. intros m (? & ? & ? & ?) rest.
      by apply read_mesh_spec. }
  cbn [mbind option_bind].
  rewrite (read_section_spec host read_vertex vertex_bytes); [|done|].
  2:{ apply Forall_forall. intros v _ rest. apply read_vertex_spec. }
  cbn [mbind option_bind].
  rewrite <- (app_nil_r (flat_map (u32_bytes host) (indexes st))).
  rewrite (read_section_spec host (read_u32 host) (u32_bytes host)); [|done|].
  2:{ eapply Forall_impl; [exact Hixs|]. intros i Hi rest. cbn beta.
      rewrite read_u32_spec. by rewrite to_u32_small. }
  cbn. by destruct st.
Qed.

(** ** Sizes of the pools *)

Lemma total_vertices_app (a b : list aiMesh) :
  total_vertices (a ++ b) = total_vertices a + total_vertices b.
Proof.
  unfold total_vertices. induction a as [|m a IH]; cbn [app foldr]; lia.
Qed.

Lemma total_indexes_app (a b : list aiMesh) :
  total_indexes (a ++ b) = total_indexes a + total_indexes b.
Proof.
  unfold total_indexes. induction a as [|m a IH]; cbn [app foldr]; lia.
Qed.

(** The meshes before the [k]-th, the [k]-th and those after it. *)
Lemma split_at_lookup (ms : list aiMesh) (k : nat) (m : aiMesh) :
  ms !! k = Some m ->
  take (S k) ms = take k ms ++ [m] /\
  total_vertices ms =
    total_vertices (take k ms) + mNumVertices m + total_vertices (drop (S k) ms) /\
  total_indexes ms =
    total_indexes (take k ms) + 3 * triangle_count (mFaces m)
    + total_indexes (drop (S k) ms).
Proof.
  intros Hk. split; [by apply take_S_r|].
  pose proof (take_drop_middle _ _ _ Hk) as Hms. split.
  - rewrite <- Hms at 1. rewrite total_vertices_app.
    unfold total_vertices; cbn [foldr]. lia.
  - rewrite <- Hms at 1. rewrite total_indexes_app.
    unfold total_indexes; cbn [foldr]. lia.
Qed.

Lemma triangle_count_le (faces : list aiFace) : triangle_count faces <= size faces.
Proof.
  induction faces as [|f faces IH]; [done|].
  rewrite triangle_count_cons, size_cons. destruct (is_triangle f); lia.
Qed.

Lemma face_indexes_bound (index_base : N) (faces : list aiFace) :
  Forall (fun i => i < 2 ^ 32) (flat_map (face_indexes index_base) faces).
Proof.
  induction faces as [|f faces IH]; cbn [flat_map]; [constructor|].
  apply Forall_app. split; [|done]. unfold face_indexes.
  destruct (is_triangle f); repeat constructor; apply to_u32_lt.
Qed.

Lemma flatten_from_indexes_bound (p_scene : aiScene) (todo : list aiMesh) :
  forall (vs : list Vertex) (ixs : list N) recs vs' ixs',
    flatten_from p_scene todo vs ixs = Some (recs, vs', ixs') ->
    Forall (fun i => i < 2 ^ 32) ixs -> Forall (fun i => i < 2 ^ 32) ixs'.
Proof.
  induction todo as [|m todo IH]; intros vs ixs recs vs' ixs' H Hixs;
    cbn [flatten_from] in H.
  - by injection H as _ _ <-.
  - destruct (mMaterials p_scene !! N.to_nat (mMaterialIndex m)) as [mat|]; [|done].
    cbn [mbind option_bind] in H.
    destruct (flatten_from _ _ _ _) as [[[recs0 vs0] ixs0]|] eqn:Hrec; [|done].
    cbn in H. injection H as _ _ <-.
    eapply IH; [exact Hrec|]. apply Forall_app. split; [done|].
    apply face_indexes_bound.
Qed.

Section FlattenedBounds.

Variable p_scene : aiScene.
Variable st : Buffers.
Hypothesis Hflat : flatten p_scene = Some st.

Lemma flatten_indexes_bound : Forall (fun i => i < 2 ^ 32) (indexes st).
Proof using Hflat.
  eapply flatten_from_indexes_bound; [exact (flatten_from_flattened _ _ Hflat)|].
  constructor.
Qed.

(** The record at position [k], with the mesh and the material it comes
    from. *)
Lemma flatten_lookup_inv (k : nat) (r : Mesh) :
  meshes st !! k = Some r ->
  exists m mat,
    mMeshes p_scene !! k = Some m /\
    mMaterials p_scene !! N.to_nat (mMaterialIndex m) = Some mat /\
    r = mesh_record mat m (total_vertices (take k (mMeshes p_scene)))
                          (total_indexes (take k (mMeshes p_scene))).
Proof using Hflat.
  intros Hr. pose proof (lookup_lt_Some _ _ _ Hr) as Hlt.
  rewrite (flatten_length_meshes _ _ Hflat) in Hlt.
  destruct (lookup_lt_is_Some_2 _ _ Hlt) as [m Hm].
  destruct (flatten_lookup _ _ Hflat k m Hm) as (mat & Hmat & Hr').
  exists m, mat. repeat split; [done..|]. congruence.
Qed.

Lemma flatten_records_bound :
  size (vertexes st) < 2 ^ 32 ->
  Forall (fun m => vertex_base m < 2 ^ 32 /\ vertex_count m < 2 ^ 32 /\
                   index_base m < 2 ^ 32 /\ index_count m < 2 ^ 32) (meshes st).
Proof using Hflat.
  intros HV. rewrite (flatten_size_vertexes _ _ Hflat) in HV.
  apply Forall_lookup. intros k r Hr.
  destruct (flatten_lookup_inv k r Hr) as (m & mat & Hm & _ & ->).
  destruct (split_at_lookup _ _ _ Hm) as (_ & Hsum & _).
  unfold mesh_record; cbn. repeat split; try apply to_u32_lt. lia.
Qed.

End FlattenedBounds.

(** ** The scenes at the limits *)

Lemma mNumVertices_mesh_2_30 : mNumVertices mesh_2_30 = 2 ^ 30.
Proof.
  unfold mNumVertices, size, mesh_2_30; cbn [mVertices].
  rewrite length_replicate. apply N2Nat.id.
Qed.

Lemma wf_mesh_2_30 : wf_mesh mesh_2_30.
Proof.
  split.
  - rewrite mNumVertices_mesh_2_30. reflexivity.
  - reflexivity.
  - reflexivity.
  - constructor.
Qed.

Lemma wf_scene_5x2_30 : wf_scene scene_5x2_30.
Proof.
  split; [reflexivity|]. unfold scene_5x2_30; cbn [mMeshes].
  repeat first [apply List.Forall_nil | apply List.Forall_cons; [apply wf_mesh_2_30|]].
Qed.

Lemma flatten_scene_5x2_30 : is_Some (flatten scene_5x2_30).
Proof.
  apply flatten_is_Some.
  unfold material_indices_valid, scene_5x2_30; cbn [mMeshes mMaterials].
  repeat first [apply List.Forall_nil | apply List.Forall_cons; [cbn; lia|]].
Qed.

Lemma total_vertices_scene_5x2_30 :
  total_vertices (mMeshes scene_5x2_30) = 5 * 2 ^ 30.
Proof.
  unfold scene_5x2_30; cbn [mMeshes total_vertices foldr].
  rewrite mNumVertices_mesh_2_30. reflexivity.
Qed.

Lemma triangle_count_replicate (n : nat) (f : aiFace) :
  is_triangle f = true -> triangle_count (replicate n f) = N.of_nat n.
Proof.
  intros Hf. induction n as [|n IH]; [done|].
  cbn [replicate]. rewrite triangle_count_cons, IH, Hf. lia.
Qed.

Lemma triangle_count_mesh_many_triangles :
  triangle_count (mFaces mesh_many_triangles) = 1431655766.
Proof.
  unfold mesh_many_triangles; cbn [mFaces].
  rewrite triangle_count_replicate by reflexivity. apply N2Nat.id.
Qed.

Lemma wf_scene_many_triangles : wf_scene scene_many_triangles.
Proof.
  split; [reflexivity|]. unfold scene_many_triangles; cbn [mMeshes].
  apply List.Forall_cons; [|apply List.Forall_nil]. split.
  - reflexivity.
  - unfold mNumFaces, size, mesh_many_triangles; cbn [mFaces].
    rewrite length_replicate, N2Nat.id. reflexivity.
  - reflexivity.
  - unfold mesh_many_triangles; cbn [mFaces]. apply Forall_replicate.
    split; [reflexivity|]. repeat constructor.
Qed.

Lemma flatten_scene_many_triangles : is_Some (flatten scene_many_triangles).
Proof.
  apply flatten_is_Some.
  unfold material_indices_valid, scene_many_triangles; cbn [mMeshes mMaterials].
  apply List.Forall_cons; [cbn; lia|apply List.Forall_nil].
Qed.

(** * The claims *)

(** C1 (the code departs from the claim).  The claim: the three values a
    triangle adds to the index pool are the submesh's [vertex_base] plus the
    face's local indices.  On the example of the specification (submesh A
    with 4 vertices and 2 triangles, then submesh B with 3 vertices) the
    triangle [0; 1; 2] of B is stored as [6; 7; 8], its local indices plus
    B's [index_base] 6, and not as [4; 5; 6], its local indices plus B's
    [vertex_base] 4; the pool holds 7 vertices, so 7 and 8 name no vertex. *)
Theorem second_mesh_indexes_offset_by_index_base :
  exists st rB,
    flatten scene_AB = Some st /\
    meshes st !! 1%nat = Some rB /\
    vertex_base rB = 4 /\ index_base rB = 6 /\
    size (vertexes st) = 7 /\
    drop 6 (indexes st) = map (fun i => index_base rB + i) [0; 1; 2] /\
    drop 6 (indexes st) = [6; 7; 8] /\
    map (fun i => vertex_base rB + i) [0; 1; 2] = [4; 5; 6].
Proof.
  eexists _, _. split; [reflexivity|]. split; [reflexivity|].
  repeat split.
Qed.

(** C2 (amended).  For a scene with M meshes, V vertices in all and I
    triangle indices in all, each below [2^32], the writer emits the u32 M,
    the M mesh records (colour as three f32, then [vertex_base],
    [vertex_count], [index_base], [index_count] as u32), the u32 V, the V
    vertex records (position, then normal), the u32 I and the I indices, in
    this order; each count field stands right before its records and decodes
    to the count, zero included. *)
Theorem save_emits_counted_sections (host : byte_order) (p_scene : aiScene)
    (st : Buffers) :
  flatten p_scene = Some st ->
  mNumMeshes p_scene < 2 ^ 32 ->
  total_vertices (mMeshes p_scene) < 2 ^ 32 ->
  total_indexes (mMeshes p_scene) < 2 ^ 32 ->
  size (meshes st) = mNumMeshes p_scene /\
  size (vertexes st) = total_vertices (mMeshes p_scene) /\
  size (indexes st) = total_indexes (mMeshes p_scene) /\
  save host st [] =
    file_layout host (mNumMeshes p_scene) (total_vertices (mMeshes p_scene))
      (total_indexes (mMeshes p_scene)) (meshes st) (vertexes st) (indexes st) /\
  u32_of_bytes host (u32_bytes host (mNumMeshes p_scene)) = mNumMeshes p_scene /\
  u32_of_bytes host (u32_bytes host (total_vertices (mMeshes p_scene))) =
    total_vertices (mMeshes p_scene) /\
  u32_of_bytes host (u32_bytes host (total_indexes (mMeshes p_scene))) =
    total_indexes (mMeshes p_scene).
Proof.
  intros Hflat HM HV HI.
  pose proof (flatten_size_meshes _ _ Hflat) as EM.
  pose proof (flatten_size_vertexes _ _ Hflat) as EV.
  pose proof (flatten_size_indexes _ _ Hflat) as EI.
  repeat split; try done.
  - rewrite save_layout, app_nil_l, EM, EV, EI. by rewrite !to_u32_small.
  - rewrite u32_of_bytes_u32_bytes. by apply to_u32_small.
  - rewrite u32_of_bytes_u32_bytes. by apply to_u32_small.
  - rewrite u32_of_bytes_u32_bytes. by apply to_u32_small.
Qed.

(** C2, witness: the empty scene, where M = V = I = 0 and the file is the
    three zero counts. *)
Lemma save_emits_counted_sections_empty :
  let empty := {| mMeshes := []; mMaterials := [] |} in
  let st := {| meshes := []; vertexes := []; indexes := [] |} in
  flatten empty = Some st /\
  save little_endian st [] = replicate 12 Byte.x00 /\
  save little_endian st [] = file_layout little_endian 0 0 0 [] [] [].
Proof.
  split; [reflexivity|]. split; [reflexivity|].
  exact (proj1 (proj2 (proj2 (proj2
    (save_emits_counted_sections little_endian
       {| mMeshes := []; mMaterials := [] |}
       {| meshes := []; vertexes := []; indexes := [] |}
       eq_refl eq_refl eq_refl eq_refl))))).
Defined.

(** C2, counterexample to the claim as first stated: a scene of five meshes
    of [2^30] vertices each has [5 * 2^30] vertices, all of them written,
    but the count field before them holds [2^30]. *)
Lemma vertex_count_field_wraps :
  wf_scene scene_5x2_30 /\
  exists st,
    flatten scene_5x2_30 = Some st /\
    size (vertexes st) = 5 * 2 ^ 30 /\
    forall host,
      save host st [] =
        file_layout host 5 (2 ^ 30) 0 (meshes st) (vertexes st) (indexes st) /\
      u32_of_bytes host (u32_bytes host (2 ^ 30)) = 2 ^ 30.
Proof.
  split; [apply wf_scene_5x2_30|].
  destruct flatten_scene_5x2_30 as [st Hst]. exists st.
  pose proof (flatten_size_meshes _ _ Hst) as EM.
  pose proof (flatten_size_vertexes _ _ Hst) as EV.
  pose proof (flatten_size_indexes _ _ Hst) as EI.
  rewrite total_vertices_scene_5x2_30 in EV.
  split; [done|]. split; [done|]. intros host. split.
  - rewrite save_layout, app_nil_l, EM, EV, EI. reflexivity.
  - rewrite u32_of_bytes_u32_bytes. reflexivity.
Qed.

(** C3 (amended).  When the scene has fewer than [2^32] vertices and fewer
    than [2^32] triangle indices in all, the ranges of the mesh records tile
    the two pools in scene order: the [k]-th record counts the vertices and
    the triangle indices of the [k]-th submesh, the first record starts at
    0, each record ends where the next one starts, and the last record ends
    at the size of the pool. *)
Theorem mesh_ranges_tile_pools (p_scene : aiScene) (st : Buffers) (k : nat) (r : Mesh) :
  flatten p_scene = Some st ->
  size (vertexes st) < 2 ^ 32 ->
  size (indexes st) < 2 ^ 32 ->
  meshes st !! k = Some r ->
  (exists m, mMeshes p_scene !! k = Some m /\
             vertex_count r = mNumVertices m /\
             index_count r = 3 * triangle_count (mFaces m)) /\
  (k = 0%nat -> vertex_base r = 0 /\ index_base r = 0) /\
  (forall r', meshes st !! S k = Some r' ->
     vertex_base r + vertex_count r = vertex_base r' /\
     index_base r + index_count r = index_base r') /\
  (S k = length (meshes st) ->
     vertex_base r + vertex_count r = size (vertexes st) /\
     index_base r + index_count r = size (indexes st)).
Proof.
  intros Hflat HV HI Hr.
  rewrite (flatten_size_vertexes _ _ Hflat) in *.
  rewrite (flatten_size_indexes _ _ Hflat) in *.
  destruct (flatten_lookup_inv _ _ Hflat k r Hr) as (m & mat & Hm & _ & ->).
  destruct (split_at_lookup _ _ _ Hm) as (Htake & Hsv & Hsi).
  unfold mesh_record; cbn [vertex_base vertex_count index_base index_count].
  split; [|split; [|split]].
  - exists m. split; [done|]. split; [done|]. apply to_u32_small. lia.
  - intros ->. cbn [take total_vertices total_indexes foldr]. done.
  - intros r' Hr'.
    destruct (flatten_lookup_inv _ _ Hflat (S k) r' Hr') as (m' & mat' & _ & _ & ->).
    cbn [mesh_record vertex_base index_base].
    rewrite Htake, total_vertices_snoc, total_indexes_snoc.
    unfold to_u32. lia.
  - intros Hlast. rewrite (flatten_length_meshes _ _ Hflat) in Hlast.
    assert (Hdrop : drop (S k) (mMeshes p_scene) = []).
    { apply drop_ge. lia. }
    rewrite Hdrop in Hsv, Hsi. cbn [total_vertices total_indexes foldr] in Hsv, Hsi.
    unfold to_u32. lia.
Qed.

(** C3, witness: the two records of the example of the specification. *)
Lemma mesh_ranges_tile_pools_example :
  exists rA rB,
    flatten scene_AB = Some buffers_AB /\
    meshes buffers_AB !! 0%nat = Some rA /\ meshes buffers_AB !! 1%nat = Some rB /\
    (vertex_base rA = 0 /\ index_base rA = 0) /\
    (vertex_base rA + vertex_count rA = vertex_base rB /\
     index_base rA + index_count rA = index_base rB) /\
    (vertex_base rB + vertex_count rB = size (vertexes buffers_AB) /\
     index_base rB + index_count rB = size (indexes buffers_AB)).
Proof.
  eexists _, _. split; [reflexivity|]. split; [reflexivity|]. split; [reflexivity|].
  pose proof (mesh_ranges_tile_pools scene_AB buffers_AB 0 _
                eq_refl eq_refl eq_refl eq_refl) as (_ & H0 & Hnext & _).
  pose proof (mesh_ranges_tile_pools scene_AB buffers_AB 1 _
                eq_refl eq_refl eq_refl eq_refl) as (_ & _ & _ & Hlast).
  split; [exact (H0 eq_refl)|]. split; [exact (Hnext _ eq_refl)|exact (Hlast eq_refl)].
Defined.

(** C3, counterexample to the claim as first stated: in the scene of five
    meshes of [2^30] vertices each, the fourth record ends at [2^32] while
    the fifth starts at 0, on the range of the first record. *)
Lemma vertex_ranges_wrap :
  wf_scene scene_5x2_30 /\
  exists st r0 r3 r4,
    flatten scene_5x2_30 = Some st /\
    meshes st !! 0%nat = Some r0 /\
    meshes st !! 3%nat = Some r3 /\ meshes st !! 4%nat = Some r4 /\
    vertex_base r3 + vertex_count r3 = 2 ^ 32 /\
    vertex_base r4 = 0 /\
    (vertex_base r0 = 0 /\ vertex_count r0 = 2 ^ 30 /\ vertex_count r4 = 2 ^ 30).
Proof.
  split; [apply wf_scene_5x2_30|].
  destruct flatten_scene_5x2_30 as [st Hst].
  destruct (flatten_lookup _ _ Hst 0 mesh_2_30 eq_refl) as (mat0 & _ & H0).
  destruct (flatten_lookup _ _ Hst 3 mesh_2_30 eq_refl) as (mat3 & _ & H3).
  destruct (flatten_lookup _ _ Hst 4 mesh_2_30 eq_refl) as (mat4 & _ & H4).
  eexists st, _, _, _. split; [done|].
  split; [exact H0|]. split; [exact H3|]. split; [exact H4|].
  unfold mesh_record; cbn [vertex_base vertex_count].
  unfold scene_5x2_30; cbn [mMeshes take total_vertices foldr].
  rewrite mNumVertices_mesh_2_30. repeat split; reflexivity.
Qed.

(** C4 (amended).  When the scene has fewer than [2^32] meshes, vertices
    and triangle indices, reading the written bytes back by the documented
    layout gives the buffers of the flattener again: the same mesh count and
    records, every vertex position (and normal) byte for byte, every index
    value, and nothing is left over. *)
Theorem read_file_save (host : byte_order) (p_scene : aiScene) (st : Buffers) :
  flatten p_scene = Some st ->
  mNumMeshes p_scene < 2 ^ 32 ->
  total_vertices (mMeshes p_scene) < 2 ^ 32 ->
  total_indexes (mMeshes p_scene) < 2 ^ 32 ->
  read_file host (save host st []) = Some (st, []).
Proof.
  intros Hflat HM HV HI.
  rewrite <- (flatten_size_meshes _ _ Hflat) in HM.
  rewrite <- (flatten_size_vertexes _ _ Hflat) in HV.
  rewrite <- (flatten_size_indexes _ _ Hflat) in HI.
  rewrite save_layout, app_nil_l, !to_u32_small by done.
  apply read_file_layout; try done.
  - by apply (flatten_records_bound p_scene).
  - by apply (flatten_indexes_bound p_scene).
Qed.

(** C4, witness: the example of the specification, on either byte order. *)
Lemma read_file_save_example :
  flatten scene_AB = Some buffers_AB /\
  read_file little_endian (save little_endian buffers_AB []) = Some (buffers_AB, []) /\
  read_file big_endian (save big_endian buffers_AB []) = Some (buffers_AB, []).
Proof.
  split; [reflexivity|]. split.
  - exact (read_file_save little_endian scene_AB buffers_AB eq_refl eq_refl eq_refl eq_refl).
  - exact (read_file_save big_endian scene_AB buffers_AB eq_refl eq_refl eq_refl eq_refl).
Defined.

(** C4, counterexample to the claim as first stated: for the scene of five
    meshes of [2^30] vertices each, whatever reading the file back by the
    layout yields, it is not the sequence of vertex positions produced by
    the flattener (a vertex section that was read has fewer than [2^32]
    records, the pool has [5 * 2^30]). *)
Lemma read_file_save_loses_vertexes :
  wf_scene scene_5x2_30 /\
  exists st,
    flatten scene_5x2_30 = Some st /\
    forall host st' rest,
      read_file host (save host st []) = Some (st', rest) ->
      map position (vertexes st') <> map position (vertexes st).
Proof.
  split; [apply wf_scene_5x2_30|].
  destruct flatten_scene_5x2_30 as [st Hst]. exists st. split; [done|].
  intros host st' rest Hread Heq.
  apply read_file_bound in Hread as (_ & Hlt & _).
  pose proof (flatten_size_vertexes _ _ Hst) as EV.
  rewrite total_vertices_scene_5x2_30 in EV.
  apply (f_equal size) in Heq. rewrite !size_map in Heq.
  rewrite Heq, EV in Hlt. revert Hlt. apply N.le_ngt. discriminate.
Qed.

(** C5.  Every vertex the flattener stores has the normal (0,0,0), whatever
    normals the source mesh carries, and every vertex record of the file is
    the three floats of the position followed by twelve zero bytes. *)
Theorem normals_zero_filled (host : byte_order) (p_scene : aiScene) (st : Buffers) :
  flatten p_scene = Some st ->
  Forall (fun v => normal v = vec3.mk float_zero float_zero float_zero) (vertexes st) /\
  forall out,
    save_vertexes host (vertexes st) out =
    out ++ u32_bytes host (to_u32 (size (vertexes st))) ++
    flat_map (fun v => vec3_bytes (position v) ++ replicate 12 Byte.x00) (vertexes st).
Proof.
  intros Hflat.
  assert (Hn : Forall (fun v => normal v = vec3.mk float_zero float_zero float_zero)
                      (vertexes st)).
  { rewrite (flatten_vertexes _ _ Hflat). apply Forall_flat_map, Forall_forall.
    intros m _. apply Forall_map, Forall_forall. by intros p _. }
  split; [done|]. intros out. unfold save_vertexes.
  rewrite (foldl_append _ vertex_bytes) by apply save_vertex_spec.
  unfold write_to_file_u32, write. rewrite <- app_assoc. do 2 f_equal.
  induction Hn as [|v vs Hv _ IH]; [done|].
  cbn [flat_map]. rewrite IH. f_equal. unfold vertex_bytes. by rewrite Hv.
Qed.

(** C5, witness: the example of the specification, whose submesh B has
    normals (0,0,1). *)
Lemma normals_zero_filled_example :
  flatten scene_AB = Some buffers_AB /\
  mNormals submesh_B = Some [pt float_zero float_zero f32_one;
                             pt float_zero float_zero f32_one;
                             pt float_zero float_zero f32_one] /\
  Forall (fun v => normal v = vec3.mk float_zero float_zero float_zero)
         (vertexes buffers_AB).
Proof.
  split; [reflexivity|]. split; [reflexivity|].
  exact (proj1 (normals_zero_filled little_endian scene_AB buffers_AB eq_refl)).
Defined.

(** C6.  A face whose number of indices is not 3 leaves the state of the
    face loop as it is: nothing is added to the index pool, [index_count] is
    not changed, and nothing else happens. *)
Theorem load_face_skips_non_triangle (index_base : N) (mesh_num : nat)
    (ai_face : aiFace) (st : Buffers) :
  mNumIndices ai_face <> 3 ->
  load_face index_base mesh_num ai_face st = st /\
  face_indexes index_base ai_face = [].
Proof.
  intros Hne. unfold load_face, face_indexes, is_triangle.
  destruct (N.eqb_spec (mNumIndices ai_face) 3) as [Heq|_]; [done|]. done.
Qed.

(** C6, witness: the quad of submesh B of the example. *)
Lemma load_face_skips_quad :
  mNumIndices {| mIndices := [0; 1; 2; 0] |} = 4 /\
  load_face 6 1 {| mIndices := [0; 1; 2; 0] |} buffers_AB = buffers_AB.
Proof.
  split; [reflexivity|].
  exact (proj1 (load_face_skips_non_triangle 6 1 {| mIndices := [0; 1; 2; 0] |}
                  buffers_AB ltac:(discriminate))).
Defined.

(** C7 (amended).  The [index_count] of a mesh record is three times the
    number of three-index faces of its submesh, reduced modulo [2^32]; it
    never exceeds three times the number of faces of the submesh, and it is a
    multiple of 3 when three times the number of three-index faces is below
    [2^32]. *)
Theorem index_count_multiple_of_3 (p_scene : aiScene) (st : Buffers) (k : nat)
    (m : aiMesh) (r : Mesh) :
  flatten p_scene = Some st ->
  mMeshes p_scene !! k = Some m ->
  meshes st !! k = Some r ->
  index_count r = to_u32 (3 * triangle_count (mFaces m)) /\
  index_count r <= 3 * mNumFaces m /\
  (3 * triangle_count (mFaces m) < 2 ^ 32 -> index_count r mod 3 = 0).
Proof.
  intros Hflat Hm Hr.
  destruct (flatten_lookup _ _ Hflat k m Hm) as (mat & _ & Hr').
  rewrite Hr in Hr'. injection Hr' as ->.
  unfold mesh_record; cbn [index_count].
  pose proof (triangle_count_le (mFaces m)) as Hle.
  unfold mNumFaces, to_u32. repeat split; [lia|]. intros Hlt. lia.
Qed.

(** C7, witness: submesh B of the example, one triangle out of two faces. *)
Lemma index_count_multiple_of_3_example :
  exists r,
    flatten scene_AB = Some buffers_AB /\
    meshes buffers_AB !! 1%nat = Some r /\
    index_count r = 3 /\ index_count r <= 3 * 2 /\ index_count r mod 3 = 0.
Proof.
  eexists. split; [reflexivity|]. split; [reflexivity|].
  pose proof (index_count_multiple_of_3 scene_AB buffers_AB 1 submesh_B _
                eq_refl eq_refl eq_refl) as (H1 & H2 & H3).
  split; [exact H1|]. split; [exact H2|exact (H3 eq_refl)].
Defined.

(** C7, counterexample to the claim as first stated: a mesh of 1431655766
    triangles gets the [index_count] 2, which is not a multiple of 3. *)
Lemma index_count_wraps :
  wf_scene scene_many_triangles /\
  exists st r,
    flatten scene_many_triangles = Some st /\
    meshes st !! 0%nat = Some r /\
    index_count r = 2 /\ index_count r mod 3 = 2.
Proof.
  split; [apply wf_scene_many_triangles|].
  destruct flatten_scene_many_triangles as [st Hst].
  destruct (flatten_lookup _ _ Hst 0 mesh_many_triangles eq_refl) as (mat & _ & Hr).
  eexists st, _. split; [done|]. split; [exact Hr|].
  unfold mesh_record; cbn [index_count].
  rewrite triangle_count_mesh_many_triangles. split; reflexivity.
Qed.

(** C8.  When the material of a submesh has no diffuse colour, the mesh
    record of that submesh has the colour (0,0,0); the failed lookup does
    not stop the run, which goes on to write the file and returns 0. *)
Theorem missing_diffuse_gives_black (p_scene : aiScene) (st : Buffers) (k : nat)
    (m : aiMesh) (mat : aiMaterial) :
  flatten p_scene = Some st ->
  mMeshes p_scene !! k = Some m ->
  mMaterials p_scene !! N.to_nat (mMaterialIndex m) = Some mat ->
  color_diffuse mat = None ->
  (exists r, meshes st !! k = Some r /\
             color r = vec3.mk float_zero float_zero float_zero) /\
  fst (Get mat (aiColor3D.mk float_zero float_zero float_zero)) = aiReturn_FAILURE /\
  forall host service file_path out_path,
    ReadFile service file_path = Some p_scene ->
    let vm := {| opt_help := false; opt_source := Some file_path;
                 opt_out := Some out_path |} in
    exit (main host service vm) = returned 0 /\
    output_file (main host service vm) = save host st [].
Proof.
  intros Hflat Hm Hmat Hnone. split; [|split].
  - destruct (flatten_lookup _ _ Hflat k m Hm) as (mat' & Hmat' & Hr).
    rewrite Hmat in Hmat'. injection Hmat' as <-.
    eexists. split; [exact Hr|]. unfold mesh_record, material_color; cbn [color].
    by rewrite Hnone.
  - unfold Get. by rewrite Hnone.
  - intros host service file_path out_path Hread.
    unfold main, export_file; cbn. by rewrite Hread, Hflat.
Qed.

(** C8, witness: submesh B of the example. *)
Lemma missing_diffuse_gives_black_example :
  exists r,
    flatten scene_AB = Some buffers_AB /\
    meshes buffers_AB !! 1%nat = Some r /\
    color r = vec3.mk float_zero float_zero float_zero.
Proof.
  destruct (missing_diffuse_gives_black scene_AB buffers_AB 1 submesh_B
              {| color_diffuse := None |} eq_refl eq_refl eq_refl eq_refl)
    as ((r & Hr & Hc) & _).
  exists r. split; [reflexivity|]. split; [exact Hr|exact Hc].
Defined.

(** C9.  A run without [--help] that lacks [--source] or [--out] prints the
    message of each missing option, never calls the importer, writes
    nothing and returns 0 (with [--help] it prints the usage text instead,
    and returns 0 as well); a run whose import returns the null scene prints
    "Failed to load model. Assimp error: " followed by the error string of
    the service, writes nothing and returns 0. *)
Theorem main_early_exits (host : byte_order) (service : import_service)
    (vm : variables_map) :
  (opt_source vm = None \/ opt_out vm = None ->
   exit (main host service vm) = returned 0 /\
   imported (main host service vm) = None /\
   output_file (main host service vm) = [] /\
   cout (main host service vm) <> [] /\
   (opt_help vm = false ->
    cout (main host service vm) =
      match opt_source vm with
      | Some _ => []
      | None => [literal ("Source was not set." ++ endl)%string]
      end ++
      match opt_out vm with
      | Some _ => []
      | None => [literal ("Output was not set." ++ endl)%string]
      end)) /\
  (forall file_path out_path,
     opt_help vm = false ->
     opt_source vm = Some file_path ->
     opt_out vm = Some out_path ->
     ReadFile service file_path = None ->
     exit (main host service vm) = returned 0 /\
     output_file (main host service vm) = [] /\
     cout (main host service vm) =
       [literal ("Failed to load model. Assimp error: "
                 ++ aiGetErrorString service ++ endl)%string]).
Proof.
  split.
  - intros Hmissing. unfold main.
    destruct (opt_help vm); [by repeat split|].
    destruct (opt_source vm) as [file_path|], (opt_out vm) as [out_path|];
      cbn; try by repeat split.
    by destruct Hmissing.
  - intros file_path out_path Hhelp Hsource Hout Hread.
    unfold main, export_file. rewrite Hhelp, Hsource, Hout, Hread. by cbn.
Qed.

(** C9, witness: a run with only [--out], and a run whose import fails. *)
Lemma main_early_exits_examples :
  let failing := {| ReadFile := fun _ => None; aiGetErrorString := "No such file" |} in
  let only_out := {| opt_help := false; opt_source := None;
                     opt_out := Some "a.bin"%string |} in
  let both := {| opt_help := false; opt_source := Some "a.obj"%string;
                 opt_out := Some "a.bin"%string |} in
  (exit (main little_endian failing only_out) = returned 0 /\
   cout (main little_endian failing only_out) =
     [literal ("Source was not set." ++ endl)%string]) /\
  (exit (main little_endian failing both) = returned 0 /\
   cout (main little_endian failing both) =
     [literal ("Failed to load model. Assimp error: No such file" ++ endl)%string]).
Proof.
  pose (failing := {| ReadFile := fun _ => None; aiGetErrorString := "No such file" |}).
  pose (only_out := {| opt_help := false; opt_source := None;
                       opt_out := Some "a.bin"%string |}).
  pose (both := {| opt_help := false; opt_source := Some "a.obj"%string;
                   opt_out := Some "a.bin"%string |}).
  destruct (proj1 (main_early_exits little_endian failing only_out) (or_introl eq_refl))
    as (He & _ & _ & _ & Hc).
  destruct (proj2 (main_early_exits little_endian failing both)
              "a.obj"%string "a.bin"%string eq_refl eq_refl eq_refl eq_refl)
    as (He' & _ & Hc').
  split; split; [exact He|exact (Hc eq_refl)|exact He'|exact Hc'].
Defined.

(** C10.  The flattener reads [mMaterials] at each submesh's material index
    without a check: when every material index of the scene is within the
    material table, each of these reads is within bounds and the run goes
    through the colour step of every submesh, writes the file and returns
    0; when some index is not, the read is past the end of the table. *)
Theorem material_lookup_in_bounds (p_scene : aiScene) :
  (material_indices_valid p_scene ->
   Forall (fun m => is_Some (mMaterials p_scene !! N.to_nat (mMaterialIndex m)))
          (mMeshes p_scene) /\
   exists st,
     flatten p_scene = Some st /\
     forall host service file_path out_path,
       ReadFile service file_path = Some p_scene ->
       exit (main host service {| opt_help := false; opt_source := Some file_path;
                                  opt_out := Some out_path |}) = returned 0) /\
  (~ material_indices_valid p_scene -> flatten p_scene = None).
Proof.
  split.
  - intros Hvalid. split.
    + eapply Forall_impl; [exact Hvalid|]. intros m Hm. by apply lookup_lt_is_Some_2.
    + destruct (proj2 (flatten_is_Some p_scene) Hvalid) as [st Hst].
      exists st. split; [done|]. intros host service file_path out_path Hread.
      unfold main, export_file; cbn. by rewrite Hread, Hst.
  - intros Hinvalid. destruct (flatten p_scene) as [st|] eqn:Hst; [|done].
    destruct Hinvalid. apply flatten_is_Some. by rewrite Hst.
Qed.

(** C10, witness: the example of the specification, and the same scene
    without its second material. *)
Lemma material_lookup_in_bounds_examples :
  is_Some (flatten scene_AB) /\
  flatten {| mMeshes := mMeshes scene_AB;
             mMaterials := [ {| color_diffuse := None |} ] |} = None.
Proof.
  split.
  - destruct (proj1 (material_lookup_in_bounds scene_AB)) as (_ & st & Hst & _).
    + unfold material_indices_valid. cbn. repeat constructor.
    + by exists st.
  - apply (proj2 (material_lookup_in_bounds _)).
    unfold material_indices_valid. cbn. intros H.
    apply Forall_cons in H as [_ H]. apply Forall_cons in H as [H _].
    vm_compute in H. lia.
Defined.

(** ** Further properties of the flattener *)

Lemma flatten_from_indexes (p_scene : aiScene) (todo : list aiMesh) :
  forall (vs : list Vertex) (ixs : list N) recs vs' ixs',
    flatten_from p_scene todo vs ixs = Some (recs, vs', ixs') ->
    ixs' = ixs ++ concat (zip_with
                            (fun r m => flat_map (face_indexes (index_base r)) (mFaces m))
                            recs todo).
Proof.
  induction todo as [|m todo IH]; intros vs ixs recs vs' ixs' H; cbn [flatten_from] in H.
  - injection H as <- _ <-. cbn. by rewrite app_nil_r.
  - destruct (mMaterials p_scene !! N.to_nat (mMaterialIndex m)) as [mat|]; [|done].
    cbn [mbind option_bind] in H.
    destruct (flatten_from _ _ _ _) as [[[recs0 vs0] ixs0]|] eqn:Hrec; [|done].
    cbn in H. injection H as <- _ <-.
    rewrite (IH _ _ _ _ _ Hrec). cbn [zip_with concat mesh_record index_base].
    by rewrite <- app_assoc.
Qed.

(** The index pool, submesh by submesh: every three-index face contributes
    its three local indices, each increased by the [index_base] of the
    record of its submesh (modulo [2^32]); other faces contribute nothing. *)
Theorem indexes_offset_by_index_base (p_scene : aiScene) (st : Buffers) :
  flatten p_scene = Some st ->
  indexes st =
  concat (zip_with (fun r m => flat_map (face_indexes (index_base r)) (mFaces m))
                   (meshes st) (mMeshes p_scene)).
Proof.
  intros Hflat.
  apply (flatten_from_indexes _ _ _ _ _ _ _ (flatten_from_flattened _ _ Hflat)).
Qed.

Lemma indexes_offset_by_index_base_example :
  flatten scene_AB = Some buffers_AB /\
  indexes buffers_AB = [0 + 0; 0 + 1; 0 + 2; 0 + 0; 0 + 2; 0 + 3; 6 + 0; 6 + 1; 6 + 2].
Proof.
  split; [reflexivity|].
  exact (indexes_offset_by_index_base scene_AB buffers_AB eq_refl).
Defined.

(** The end-to-end example of the specification: two mesh records,
    [{(1,0,0), 0, 4, 0, 6}] and [{(0,0,0), 4, 3, 6, 3}], 7 vertices and 9
    indices. *)
Theorem flatten_scene_AB :
  exists vs ixs,
    flatten scene_AB =
    Some {| meshes :=
              [ {| color := vec3.mk f32_one float_zero float_zero;
                   vertex_base := 0; vertex_count := 4;
                   index_base := 0; index_count := 6 |};
                {| color := vec3.mk float_zero float_zero float_zero;
                   vertex_base := 4; vertex_count := 3;
                   index_base := 6; index_count := 3 |} ];
            vertexes := vs; indexes := ixs |} /\
    size vs = 7 /\ size ixs = 9.
Proof. eexists _, _. split; [reflexivity|]. split; reflexivity. Qed.

(** ** The pools and the records, in more detail *)

Lemma lookup_flat_map_at {A B : Type} (f : A -> list B) (l : list A) (k j : nat)
    (a : A) (b : B) :
  l !! k = Some a -> f a !! j = Some b ->
  flat_map f l !! (length (flat_map f (take k l)) + j)%nat = Some b.
Proof.
  intros Hk Hj. pose proof (take_drop_middle _ _ _ Hk) as Hl. revert Hl.
  generalize (take k l) (drop (S k) l). intros pre post Hl. subst l.
  rewrite flat_map_app. rewrite lookup_app_r by lia.
  replace (length (flat_map f pre) + j - length (flat_map f pre))%nat with j by lia.
  cbn [flat_map]. by apply lookup_app_l_Some.
Qed.

Lemma size_flat_map_vertices (ms : list aiMesh) :
  size (flat_map (fun m => map mk_vertex (mVertices m)) ms) = total_vertices ms.
Proof.
  unfold total_vertices. induction ms as [|m ms IH]; [done|].
  cbn [flat_map foldr]. rewrite size_app, size_map, IH. done.
Qed.

(** The vertex of local index [j] of the [k]-th submesh is stored, with the
    three coordinates of its source position unchanged, at the pool index
    [vertex_base + j] of the submesh's record, when the pool has fewer than
    [2^32] vertices. *)
Theorem vertex_at_vertex_base_plus_local (p_scene : aiScene) (st : Buffers)
    (k j : nat) (m : aiMesh) (r : Mesh) (p : aiVector3D) :
  flatten p_scene = Some st ->
  size (vertexes st) < 2 ^ 32 ->
  mMeshes p_scene !! k = Some m ->
  meshes st !! k = Some r ->
  mVertices m !! j = Some p ->
  position <$> vertexes st !! N.to_nat (vertex_base r + N.of_nat j) =
  Some (vec3.mk (aiVector3D.x p) (aiVector3D.y p) (aiVector3D.z p)).
Proof.
  intros Hflat HV Hm Hr Hp.
  destruct (flatten_lookup _ _ Hflat k m Hm) as (mat & _ & Hr').
  rewrite Hr in Hr'. injection Hr' as ->.
  rewrite (flatten_size_vertexes _ _ Hflat) in HV.
  destruct (split_at_lookup _ _ _ Hm) as (_ & Hsum & _).
  unfold mesh_record; cbn [vertex_base].
  rewrite to_u32_small by lia.
  rewrite (flatten_vertexes _ _ Hflat).
  replace (N.to_nat (total_vertices (take k (mMeshes p_scene)) + N.of_nat j))
    with (length (flat_map (fun m => map mk_vertex (mVertices m))
                           (take k (mMeshes p_scene))) + j)%nat.
  2:{ pose proof (size_flat_map_vertices (take k (mMeshes p_scene))) as Hs.
      unfold size in Hs. lia. }
  erewrite lookup_flat_map_at; [|exact Hm|].
  2:{ rewrite list_lookup_fmap, Hp. reflexivity. }
  done.
Qed.

Lemma vertex_at_vertex_base_plus_local_example :
  flatten scene_AB = Some buffers_AB /\
  position <$> vertexes buffers_AB !! 6%nat = Some (vec3.mk f32_one f32_one f32_one).
Proof.
  split; [reflexivity|].
  exact (vertex_at_vertex_base_plus_local scene_AB buffers_AB 1 2 submesh_B _
           (pt f32_one f32_one f32_one) eq_refl eq_refl eq_refl eq_refl eq_refl).
Defined.

(** When the material of a submesh has a diffuse colour, the record of the
    submesh has that colour, channel by channel. *)
Theorem diffuse_colour_copied (p_scene : aiScene) (st : Buffers) (k : nat)
    (m : aiMesh) (mat : aiMaterial) (c : aiColor3D) :
  flatten p_scene = Some st ->
  mMeshes p_scene !! k = Some m ->
  mMaterials p_scene !! N.to_nat (mMaterialIndex m) = Some mat ->
  color_diffuse mat = Some c ->
  exists r, meshes st !! k = Some r /\
            vec3.r (color r) = aiColor3D.r c /\
            vec3.g (color r) = aiColor3D.g c /\
            vec3.b (color r) = aiColor3D.b c.
Proof.
  intros Hflat Hm Hmat Hc.
  destruct (flatten_lookup _ _ Hflat k m Hm) as (mat' & Hmat' & Hr).
  rewrite Hmat in Hmat'. injection Hmat' as <-.
  eexists. split; [exact Hr|]. unfold mesh_record, material_color; cbn [color].
  by rewrite Hc.
Qed.

Lemma diffuse_colour_copied_example :
  exists r, meshes buffers_AB !! 0%nat = Some r /\
            color r = vec3.mk f32_one float_zero float_zero.
Proof.
  destruct (diffuse_colour_copied scene_AB buffers_AB 0 submesh_A
              {| color_diffuse := Some (aiColor3D.mk f32_one float_zero float_zero) |}
              (aiColor3D.mk f32_one float_zero float_zero)
              eq_refl eq_refl eq_refl eq_refl) as (r & Hr & _).
  exists r. split; [exact Hr|]. revert Hr. intros [= <-]. reflexivity.
Defined.

Lemma flatten_from_counts (p_scene : aiScene) (todo : list aiMesh) :
  forall (vs : list Vertex) (ixs : list N) recs vs' ixs',
    flatten_from p_scene todo vs ixs = Some (recs, vs', ixs') ->
    Forall2 (fun r m => vertex_count r = mNumVertices m) recs todo.
Proof.
  induction todo as [|m todo IH]; intros vs ixs recs vs' ixs' H; cbn [flatten_from] in H.
  - injection H as <- _ _. constructor.
  - destruct (mMaterials p_scene !! N.to_nat (mMaterialIndex m)) as [mat|]; [|done].
    cbn [mbind option_bind] in H.
    destruct (flatten_from _ _ _ _) as [[[recs0 vs0] ixs0]|] eqn:Hrec; [|done].
    cbn in H. injection H as <- _ _. constructor; [done|]. by eapply IH.
Qed.

(** The flattener stores one record per submesh, one vertex per source
    vertex and three indices per three-index face; the [vertex_count] fields
    of the records add up to the size of the vertex pool, whatever the
    sizes. *)
Theorem pool_sizes (p_scene : aiScene) (st : Buffers) :
  flatten p_scene = Some st ->
  length (meshes st) = length (mMeshes p_scene) /\
  size (vertexes st) = total_vertices (mMeshes p_scene) /\
  size (indexes st) = total_indexes (mMeshes p_scene) /\
  sum_vertex_count (meshes st) = size (vertexes st).
Proof.
  intros Hflat. split; [by apply flatten_length_meshes|].
  split; [by apply flatten_size_vertexes|].
  split; [by apply flatten_size_indexes|].
  rewrite (flatten_size_vertexes _ _ Hflat).
  pose proof (flatten_from_counts _ _ _ _ _ _ _ (flatten_from_flattened _ _ Hflat)) as H.
  unfold sum_vertex_count, total_vertices.
  induction H as [|r m recs ms Hr _ IH]; [done|]. cbn [foldr]. by rewrite Hr, IH.
Qed.

Lemma pool_sizes_example :
  length (meshes buffers_AB) = 2%nat /\ size (vertexes buffers_AB) = 7 /\
  size (indexes buffers_AB) = 9 /\ sum_vertex_count (meshes buffers_AB) = 7.
Proof.
  destruct (pool_sizes scene_AB buffers_AB eq_refl) as (H1 & H2 & H3 & H4).
  split; [exact H1|]. split; [exact H2|]. split; [exact H3|].
  etransitivity; [exact H4|exact H2].
Defined.

(** ** What the flattener does not look at *)

Lemma load_mesh_same_geometry (s1 s2 : aiScene) (mesh_num : nat) (m1 m2 : aiMesh)
    (st : Buffers) :
  mMaterials s1 = mMaterials s2 -> same_geometry m1 m2 ->
  load_mesh s1 mesh_num m1 st = load_mesh s2 mesh_num m2 st.
Proof.
  intros Hmat (Hv & Hf & Hi).
  unfold load_mesh, load_vertexes, load_faces, mNumVertices.
  by rewrite Hmat, Hv, Hf, Hi.
Qed.

Lemma load_meshes_same_geometry (s1 s2 : aiScene) (ms1 ms2 : list aiMesh) :
  mMaterials s1 = mMaterials s2 -> Forall2 same_geometry ms1 ms2 ->
  forall (mesh_num : nat) (st : Buffers),
    load_meshes s1 mesh_num ms1 st = load_meshes s2 mesh_num ms2 st.
Proof.
  intros Hmat H. induction H as [|m1 m2 ms1 ms2 Hm _ IH]; intros mesh_num st;
    cbn [load_meshes]; [done|].
  rewrite (load_mesh_same_geometry s1 s2 mesh_num m1 m2 st Hmat Hm).
  destruct (load_mesh s2 mesh_num m2 st) as [st'|]; cbn [mbind option_bind]; [|done].
  apply IH.
Qed.

(** Two scenes with the same materials whose submeshes agree on positions,
    faces and material index are flattened to the same buffers: normals and
    texture coordinates, present or not, have no influence on the result. *)
Theorem flatten_ignores_normals_and_texture_coords (s1 s2 : aiScene) :
  mMaterials s1 = mMaterials s2 ->
  Forall2 same_geometry (mMeshes s1) (mMeshes s2) ->
  flatten s1 = flatten s2.
Proof.
  intros Hmat H. unfold flatten. rewrite (Forall2_length _ _ _ H).
  by apply load_meshes_same_geometry.
Qed.

Lemma flatten_ignores_normals_example :
  let A' := {| mVertices := mVertices submesh_A;
               mNormals := Some [pt f32_one f32_one f32_one];
               mTextureCoords0 := Some (mVertices submesh_A);
               mFaces := mFaces submesh_A;
               mMaterialIndex := mMaterialIndex submesh_A |} in
  flatten scene_AB =
  flatten {| mMeshes := [A'; submesh_B]; mMaterials := mMaterials scene_AB |}.
Proof.
  cbv zeta.
  apply (flatten_ignores_normals_and_texture_coords scene_AB
           {| mMeshes := [ {| mVertices := mVertices submesh_A;
                              mNormals := Some [pt f32_one f32_one f32_one];
                              mTextureCoords0 := Some (mVertices submesh_A);
                              mFaces := mFaces submesh_A;
                              mMaterialIndex := mMaterialIndex submesh_A |};
                           submesh_B ];
              mMaterials := mMaterials scene_AB |} eq_refl).
  repeat constructor.
Defined.

Lemma triangle_count_filter (faces : list aiFace) :
  triangle_count (List.filter is_triangle faces) = triangle_count faces.
Proof.
  induction faces as [|f faces IH]; [done|].
  cbn [List.filter]. destruct (is_triangle f) eqn:Hf.
  - by rewrite !triangle_count_cons, Hf, IH.
  - by rewrite triangle_count_cons, Hf, IH.
Qed.

Lemma face_indexes_filter (index_base : N) (faces : list aiFace) :
  flat_map (face_indexes index_base) (List.filter is_triangle faces) =
  flat_map (face_indexes index_base) faces.
Proof.
  induction faces as [|f faces IH]; [done|].
  cbn [List.filter flat_map]. destruct (is_triangle f) eqn:Hf.
  - cbn [flat_map]. by rewrite IH.
  - rewrite IH. unfold face_indexes at 2. by rewrite Hf.
Qed.

Lemma flatten_from_drop_non_triangles (p_scene : aiScene) (todo : list aiMesh) :
  forall (vs : list Vertex) (ixs : list N),
    flatten_from (drop_non_triangles p_scene) (map drop_non_triangles_mesh todo) vs ixs =
    flatten_from p_scene todo vs ixs.
Proof.
  induction todo as [|m todo IH]; intros vs ixs; cbn [map flatten_from]; [done|].
  change (mMaterials (drop_non_triangles p_scene)) with (mMaterials p_scene).
  cbn [drop_non_triangles_mesh mMaterialIndex mVertices mFaces].
  destruct (mMaterials p_scene !! N.to_nat (mMaterialIndex m)) as [mat|]; [|done].
  cbn [mbind option_bind]. rewrite face_indexes_filter, IH.
  destruct (flatten_from _ _ _ _) as [[[recs vs'] ixs']|]; [|done].
  cbn. do 3 f_equal. unfold mesh_record, mNumVertices.
  cbn [drop_non_triangles_mesh mVertices mFaces].
  by rewrite triangle_count_filter.
Qed.

(** Removing from every submesh the faces that do not have exactly three
    indices changes nothing in what the flattener produces. *)
Theorem flatten_drop_non_triangles (p_scene : aiScene) :
  flatten (drop_non_triangles p_scene) = flatten p_scene.
Proof.
  rewrite !flatten_spec. cbn [drop_non_triangles mMeshes].
  by rewrite flatten_from_drop_non_triangles.
Qed.

Lemma flatten_drop_non_triangles_example :
  flatten scene_AB =
  flatten {| mMeshes :=
               [submesh_A;
                {| mVertices := mVertices submesh_B; mNormals := mNormals submesh_B;
                   mTextureCoords0 := None;
                   mFaces := [ {| mIndices := [0; 1; 2] |} ];
                   mMaterialIndex := 1 |}];
             mMaterials := mMaterials scene_AB |}.
Proof. symmetry. exact (flatten_drop_non_triangles scene_AB). Defined.

(** ** The indices of the first submesh *)

Lemma face_indexes_0 (faces : list aiFace) :
  Forall (fun f => Forall (fun i => i < 2 ^ 32) (mIndices f)) faces ->
  flat_map (face_indexes 0) faces = flat_map mIndices (List.filter is_triangle faces).
Proof.
  induction 1 as [|f faces Hf _ IH]; [done|].
  cbn [flat_map List.filter]. unfold face_indexes at 1.
  destruct (is_triangle f) eqn:Htri; [|by rewrite IH].
  cbn [flat_map]. rewrite IH. f_equal.
  unfold is_triangle, mNumIndices, size in Htri. apply N.eqb_eq in Htri.
  destruct (mIndices f) as [|a [|b [|c [|d l]]]]; cbn [length] in Htri; try lia.
  apply Forall_cons in Hf as [Ha Hf]. apply Forall_cons in Hf as [Hb Hf].
  apply Forall_cons in Hf as [Hc _]. cbn [nth].
  by rewrite !N.add_0_l, !to_u32_small.
Qed.

(** The index pool starts with the index triples of the three-index faces
    of the first submesh, exactly as the source gives them; for a scene of a
    single submesh this is the whole pool. *)
Theorem first_submesh_indexes_verbatim (p_scene : aiScene) (st : Buffers)
    (m : aiMesh) (rest : list aiMesh) :
  flatten p_scene = Some st ->
  mMeshes p_scene = m :: rest ->
  Forall (fun f => Forall (fun i => i < 2 ^ 32) (mIndices f)) (mFaces m) ->
  exists tail,
    indexes st = flat_map mIndices (List.filter is_triangle (mFaces m)) ++ tail /\
    (rest = [] -> tail = []).
Proof.
  intros Hflat Hms Hwf. pose proof (flatten_from_flattened _ _ Hflat) as H.
  rewrite Hms in H. cbn [flatten_from] in H.
  destruct (mMaterials p_scene !! N.to_nat (mMaterialIndex m)) as [mat|]; [|done].
  cbn [mbind option_bind] in H.
  destruct (flatten_from _ _ _ _) as [[[recs0 vs0] ixs0]|] eqn:Hrec; [|done].
  cbn in H. injection H as _ _ <-.
  pose proof (flatten_from_indexes _ _ _ _ _ _ _ Hrec) as Hixs.
  change (to_u32 (size [])) with 0 in Hixs. rewrite face_indexes_0 in Hixs by done.
  eexists. split; [exact Hixs|]. intros ->.
  cbn [flatten_from] in Hrec. injection Hrec as <- _ _. done.
Qed.

Lemma first_submesh_indexes_verbatim_example :
  take 6 (indexes buffers_AB) = [0; 1; 2; 0; 2; 3].
Proof.
  destruct (first_submesh_indexes_verbatim scene_AB buffers_AB submesh_A [submesh_B]
              eq_refl eq_refl) as (tail & -> & _).
  - repeat constructor.
  - reflexivity.
Defined.

(** ** One turn of the mesh loop, on any state *)

Lemma load_face_frame (index_base : N) (mesh_num : nat) (f : aiFace) (st : Buffers) :
  vertexes (load_face index_base mesh_num f st) = vertexes st /\
  indexes (load_face index_base mesh_num f st) =
    indexes st ++ face_indexes index_base f /\
  length (meshes (load_face index_base mesh_num f st)) = length (meshes st) /\
  forall j, j <> mesh_num ->
    meshes (load_face index_base mesh_num f st) !! j = meshes st !! j.
Proof.
  unfold load_face, face_indexes. fold (is_triangle f).
  destruct (is_triangle f); cbn [negb].
  - unfold update_mesh, push_index; cbn [meshes vertexes indexes].
    split; [done|]. split; [by rewrite <- !app_assoc|].
    split; [by rewrite length_alter|].
    intros j Hj. by apply list_lookup_alter_ne.
  - split; [done|]. split; [by rewrite app_nil_r|]. done.
Qed.

Lemma load_faces_frame (index_base : N) (mesh_num : nat) (faces : list aiFace) :
  forall st : Buffers,
    vertexes (foldl (fun st f => load_face index_base mesh_num f st) st faces) =
      vertexes st /\
    indexes (foldl (fun st f => load_face index_base mesh_num f st) st faces) =
      indexes st ++ flat_map (face_indexes index_base) faces /\
    length (meshes (foldl (fun st f => load_face index_base mesh_num f st) st faces)) =
      length (meshes st) /\
    forall j, j <> mesh_num ->
      meshes (foldl (fun st f => load_face index_base mesh_num f st) st faces) !! j =
      meshes st !! j.
Proof.
  induction faces as [|f faces IH]; intros st; cbn [foldl flat_map].
  - rewrite app_nil_r. done.
  - destruct (IH (load_face index_base mesh_num f st)) as (Hv & Hi & Hl & Hm).
    destruct (load_face_frame index_base mesh_num f st) as (Hv1 & Hi1 & Hl1 & Hm1).
    rewrite Hv, Hi, Hl, Hv1, Hi1, Hl1.
    split; [done|]. split; [by rewrite <- app_assoc|]. split; [done|].
    intros j Hj. by rewrite (Hm j Hj), (Hm1 j Hj).
Qed.

(** One turn of the mesh loop, started on any state, only appends to the
    two pools (the positions of the submesh in order, then the entries of
    its faces offset by the size the index pool had), keeps the number of
    records and changes no record other than its own. *)
Theorem load_mesh_frame (p_scene : aiScene) (mesh_num : nat) (m : aiMesh)
    (st st' : Buffers) :
  load_mesh p_scene mesh_num m st = Some st' ->
  vertexes st' = vertexes st ++ map mk_vertex (mVertices m) /\
  indexes st' =
    indexes st ++ flat_map (face_indexes (to_u32 (size (indexes st)))) (mFaces m) /\
  length (meshes st') = length (meshes st) /\
  forall j, j <> mesh_num -> meshes st' !! j = meshes st !! j.
Proof.
  unfold load_mesh.
  destruct (mMaterials p_scene !! N.to_nat (mMaterialIndex m)) as [mat|]; [|done].
  cbn [mbind option_bind]. intros H. injection H as <-.
  unfold load_faces.
  match goal with
  | |- context [foldl (fun st f => load_face ?b ?k f st) ?s (mFaces m)] =>
      destruct (load_faces_frame b k (mFaces m) s) as (Hv & Hi & Hl & Hm)
  end.
  rewrite load_vertexes_spec in *. unfold update_mesh in *.
  cbn [meshes vertexes indexes] in *.
  rewrite Hv, Hi, Hl, !length_alter. repeat split; try done.
  intros j Hj. rewrite (Hm j Hj). by rewrite !list_lookup_alter_ne.
Qed.

Lemma load_mesh_frame_example :
  exists st',
    load_mesh scene_AB 1 submesh_B
      {| meshes := [Mesh_zero; Mesh_zero]; vertexes := []; indexes := [7; 7; 7] |}
    = Some st' /\
    indexes st' = [7; 7; 7; 3; 4; 5] /\
    meshes st' !! 0%nat = Some Mesh_zero.
Proof.
  eexists. split; [reflexivity|].
  destruct (load_mesh_frame scene_AB 1 submesh_B
              {| meshes := [Mesh_zero; Mesh_zero]; vertexes := []; indexes := [7; 7; 7] |}
              _ eq_refl) as (_ & Hi & _ & Hm).
  split; [exact Hi|]. exact (Hm 0%nat ltac:(discriminate)).
Defined.

(** ** Sizes and offsets in the file *)

Lemma length_flat_map_const {A : Type} (enc : A -> list byte) (c : nat) (l : list A) :
  (forall a, length (enc a) = c) -> length (flat_map enc l) = (c * length l)%nat.
Proof.
  intros Henc. induction l as [|a l IH]; cbn [flat_map length]; [lia|].
  rewrite length_app, Henc, IH. lia.
Qed.

Lemma to_u32_to_u32 (n : N) : to_u32 (to_u32 n) = to_u32 n.
Proof. apply to_u32_small, to_u32_lt. Qed.

Lemma length_vec3_bytes (v : vec3) : length (vec3_bytes v) = 12%nat.
Proof. reflexivity. Qed.

Lemma length_mesh_bytes (host : byte_order) (m : Mesh) :
  length (mesh_bytes host m) = 28%nat.
Proof.
  unfold mesh_bytes. rewrite !length_app, !length_u32_bytes, length_vec3_bytes. done.
Qed.

Lemma length_vertex_bytes (v : Vertex) : length (vertex_bytes v) = 24%nat.
Proof. reflexivity. Qed.

(** The writer appends [12 + 28 M + 24 V + 4 I] bytes for [M] records, [V]
    vertices and [I] indices and leaves what was written before in place;
    the vertex count field is at offset [4 + 28 M] of what it appends and
    the index count field at offset [8 + 28 M + 24 V]. *)
Theorem file_size_and_offsets (host : byte_order) (st : Buffers) (out : ofstream) :
  length (save host st out) =
    (length out + 12 + 28 * length (meshes st) + 24 * length (vertexes st)
     + 4 * length (indexes st))%nat /\
  take (length out) (save host st out) = out /\
  read_u32 host (drop (length out) (save host st out)) =
    Some (to_u32 (size (meshes st)),
          drop (length out + 4) (save host st out)) /\
  read_u32 host (drop (length out + 4 + 28 * length (meshes st)) (save host st out)) =
    Some (to_u32 (size (vertexes st)),
          drop (length out + 8 + 28 * length (meshes st)) (save host st out)) /\
  read_u32 host (drop (length out + 8 + 28 * length (meshes st)
                       + 24 * length (vertexes st)) (save host st out)) =
    Some (to_u32 (size (indexes st)), flat_map (u32_bytes host) (indexes st)).
Proof.
  rewrite save_layout. unfold file_layout.
  pose proof (length_flat_map_const (mesh_bytes host) 28 (meshes st)
                (length_mesh_bytes host)) as LB.
  pose proof (length_flat_map_const vertex_bytes 24 (vertexes st)
                length_vertex_bytes) as LD.
  pose proof (length_flat_map_const (u32_bytes host) 4 (indexes st)
                (length_u32_bytes host)) as LF.
  pose proof (length_u32_bytes host (to_u32 (size (meshes st)))) as LA.
  pose proof (length_u32_bytes host (to_u32 (size (vertexes st)))) as LC.
  pose proof (length_u32_bytes host (to_u32 (size (indexes st)))) as LE.
  pose proof (fun rest => read_u32_spec host (to_u32 (size (meshes st))) rest) as RA.
  pose proof (fun rest => read_u32_spec host (to_u32 (size (vertexes st))) rest) as RC.
  pose proof (fun rest => read_u32_spec host (to_u32 (size (indexes st))) rest) as RE.
  rewrite to_u32_to_u32 in RA, RC, RE.
  revert LA LB LC LD LE LF RA RC RE.
  generalize (u32_bytes host (to_u32 (size (meshes st))))
             (flat_map (mesh_bytes host) (meshes st))
             (u32_bytes host (to_u32 (size (vertexes st))))
             (flat_map vertex_bytes (vertexes st))
             (u32_bytes host (to_u32 (size (indexes st))))
             (flat_map (u32_bytes host) (indexes st)).
  intros A B C D E F LA LB LC LD LE LF RA RC RE.
  split; [|split; [|split; [|split]]].
  - rewrite !length_app. lia.
  - by rewrite take_app_length.
  - rewrite drop_app_length, RA. do 2 f_equal.
    rewrite (app_assoc out A). symmetry. apply drop_app_length'.
    rewrite length_app. lia.
  - replace (out ++ A ++ B ++ C ++ D ++ E ++ F)
      with ((out ++ A ++ B) ++ C ++ D ++ E ++ F) by (by rewrite <- !app_assoc).
    rewrite drop_app_length' by (rewrite !length_app; lia).
    rewrite RC. do 2 f_equal.
    rewrite (app_assoc (out ++ A ++ B) C). symmetry. apply drop_app_length'.
    rewrite !length_app. lia.
  - replace (out ++ A ++ B ++ C ++ D ++ E ++ F)
      with ((out ++ A ++ B ++ C ++ D) ++ E ++ F) by (by rewrite <- !app_assoc).
    rewrite drop_app_length' by (rewrite !length_app; lia).
    by rewrite RE.
Qed.

(** ** The two [write_to_file] functions *)

(** [write_to_file] of a [uint32_t] keeps what was written, appends four
    bytes, and these read back as the value (modulo [2^32]) on the same byte
    order; two values below [2^32] with the same bytes are equal, and the
    big-endian bytes are the little-endian ones reversed. *)
Theorem write_to_file_u32_round_trip (host : byte_order) (out : ofstream) (ui : N)
    (rest : list byte) :
  length (write_to_file_u32 host out ui) = (length out + 4)%nat /\
  take (length out) (write_to_file_u32 host out ui) = out /\
  read_u32 host (drop (length out) (write_to_file_u32 host out ui) ++ rest) =
    Some (to_u32 ui, rest) /\
  (forall ui', ui < 2 ^ 32 -> ui' < 2 ^ 32 ->
     write_to_file_u32 host out ui = write_to_file_u32 host out ui' -> ui = ui') /\
  u32_bytes big_endian ui = rev (u32_bytes little_endian ui).
Proof.
  unfold write_to_file_u32, write.
  split; [by rewrite length_app, length_u32_bytes|].
  split; [by rewrite take_app_length|].
  split; [by rewrite drop_app_length, read_u32_spec|].
  split; [|done].
  intros ui' Hui Hui' Heq. apply app_inv_head in Heq.
  apply (f_equal (u32_of_bytes host)) in Heq.
  rewrite !u32_of_bytes_u32_bytes, !to_u32_small in Heq; done.
Qed.

(** [write_to_file] of a [glm::vec3] keeps what was written, appends twelve
    bytes, the floats [x], [y], [z] in this order, and these read back as
    the same vector, byte for byte; two vectors with the same bytes are
    equal. *)
Theorem write_to_file_vec3_round_trip (out : ofstream) (vector : vec3)
    (rest : list byte) :
  length (write_to_file_vec3 out vector) = (length out + 12)%nat /\
  take (length out) (write_to_file_vec3 out vector) = out /\
  drop (length out) (write_to_file_vec3 out vector) =
    float_bytes (vec3.x vector) ++ float_bytes (vec3.y vector)
    ++ float_bytes (vec3.z vector) /\
  read_vec3 (drop (length out) (write_to_file_vec3 out vector) ++ rest) =
    Some (vector, rest) /\
  (forall vector', write_to_file_vec3 out vector = write_to_file_vec3 out vector' ->
                   vector = vector').
Proof.
  rewrite write_to_file_vec3_spec.
  split; [by rewrite length_app, length_vec3_bytes|].
  split; [by rewrite take_app_length|].
  split; [by rewrite drop_app_length|].
  split; [by rewrite drop_app_length, read_vec3_spec|].
  intros vector' Heq. rewrite write_to_file_vec3_spec in Heq.
  apply app_inv_head in Heq.
  pose proof (read_vec3_spec vector []) as H1.
  pose proof (read_vec3_spec vector' []) as H2.
  rewrite Heq in H1. rewrite H1 in H2. by injection H2.
Qed.

Lemma write_to_file_u32_round_trip_example :
  write_to_file_u32 little_endian [] 258 = [Byte.x02; Byte.x01; Byte.x00; Byte.x00] /\
  write_to_file_u32 big_endian [] 258 = [Byte.x00; Byte.x00; Byte.x01; Byte.x02] /\
  read_u32 big_endian (write_to_file_u32 big_endian [] 258) = Some (258, []) /\
  (write_to_file_u32 little_endian [] 258 = write_to_file_u32 little_endian [] 258 ->
   258 = 258).
Proof.
  split; [reflexivity|]. split; [reflexivity|].
  destruct (write_to_file_u32_round_trip big_endian [] 258 []) as (_ & _ & Hr & _).
  destruct (write_to_file_u32_round_trip little_endian [] 258 []) as (_ & _ & _ & Hi & _).
  split; [exact Hr|]. exact (Hi 258 eq_refl eq_refl).
Defined.

Lemma write_to_file_vec3_round_trip_example :
  let v := vec3.mk f32_one float_zero f32_one in
  read_vec3 (write_to_file_vec3 [] v) = Some (v, []) /\
  (write_to_file_vec3 [] v = write_to_file_vec3 [] v -> v = v).
Proof.
  destruct (write_to_file_vec3_round_trip [] (vec3.mk f32_one float_zero f32_one) [])
    as (_ & _ & _ & Hr & Hi).
  split; [exact Hr|]. exact (Hi (vec3.mk f32_one float_zero f32_one)).
Defined.

(** ** Runs of [main] *)



(** The file named by [--out] is opened in every run without [--help] that
    has the option, also when [--source] is missing or the import fails and
    nothing is written to it; the importer is called exactly in the runs
    without [--help] that have both options. *)
Theorem main_opens_and_imports (host : byte_order) (service : import_service)
    (vm : variables_map) :
  opened (main host service vm) = (if opt_help vm then None else opt_out vm) /\
  imported (main host service vm) =
    (if opt_help vm then None
     else match opt_source vm, opt_out vm with
          | Some file_path, Some _ => Some file_path
          | _, _ => None
          end).
Proof.
  unfold main. destruct (opt_help vm); [done|].
  destruct (opt_source vm) as [file_path|], (opt_out vm) as [out_path|]; try done.
  unfold export_file.
  destruct (ReadFile service file_path) as [p_scene|]; [|done].
  by destruct (flatten p_scene).
Qed.

(** ** The scene without meshes *)

(** A scene without meshes, whatever its material table, is flattened to
    three empty buffers without any read of the table, and the file written
    for it is the three count fields, twelve zero bytes, on either byte
    order. *)
Theorem flatten_no_mesh (host : byte_order) (materials : list aiMaterial) :
  flatten {| mMeshes := []; mMaterials := materials |} =
    Some {| meshes := []; vertexes := []; indexes := [] |} /\
  save host {| meshes := []; vertexes := []; indexes := [] |} [] =
    replicate 12 Byte.x00.
Proof. split; [reflexivity|]. by destruct host. Qed.

(** ** Scenes that extend one another *)

Lemma flatten_from_materials (s1 s2 : aiScene) (todo : list aiMesh) :
  mMaterials s1 = mMaterials s2 ->
  forall (vs : list Vertex) (ixs : list N),
    flatten_from s1 todo vs ixs = flatten_from s2 todo vs ixs.
Proof.
  intros Hmat. induction todo as [|m todo IH]; intros vs ixs; cbn [flatten_from]; [done|].
  rewrite Hmat.
  destruct (mMaterials s2 !! N.to_nat (mMaterialIndex m)) as [mat|]; [|done].
  cbn [mbind option_bind]. by rewrite IH.
Qed.

Lemma flatten_from_app (p_scene : aiScene) (a b : list aiMesh) :
  forall (vs : list Vertex) (ixs : list N),
    flatten_from p_scene (a ++ b) vs ixs =
    '(r1, v1, i1) ← flatten_from p_scene a vs ixs;
    '(r2, v2, i2) ← flatten_from p_scene b v1 i1;
    Some (r1 ++ r2, v2, i2).
Proof.
  induction a as [|m a IH]; intros vs ixs; cbn [app flatten_from].
  - cbn. by destruct (flatten_from p_scene b vs ixs) as [[[r2 v2] i2]|].
  - destruct (mMaterials p_scene !! N.to_nat (mMaterialIndex m)) as [mat|]; [|done].
    cbn [mbind option_bind]. rewrite IH.
    destruct (flatten_from p_scene a _ _) as [[[r1 v1] i1]|]; [|done].
    cbn. by destruct (flatten_from p_scene b v1 i1) as [[[r2 v2] i2]|].
Qed.

(** When a scene is flattened, so is the scene made of its first submeshes
    only, and the buffers of the longer scene start with those of the
    shorter one: submeshes that follow change neither the records nor the
    vertices nor the indices of those before them. *)
Theorem flatten_prefix (materials : list aiMaterial) (ms1 ms2 : list aiMesh)
    (st2 : Buffers) :
  flatten {| mMeshes := ms1 ++ ms2; mMaterials := materials |} = Some st2 ->
  exists st1 recs vs ixs,
    flatten {| mMeshes := ms1; mMaterials := materials |} = Some st1 /\
    meshes st2 = meshes st1 ++ recs /\
    vertexes st2 = vertexes st1 ++ vs /\
    indexes st2 = indexes st1 ++ ixs.
Proof.
  intros H2. apply flatten_from_flattened in H2. cbn [mMeshes] in H2.
  rewrite flatten_from_app in H2.
  rewrite flatten_spec. cbn [mMeshes].
  rewrite (flatten_from_materials _ {| mMeshes := ms1 ++ ms2; mMaterials := materials |})
    by done.
  destruct (flatten_from _ ms1 [] []) as [[[r1 v1] i1]|]; [|done].
  cbn [mbind option_bind] in H2.
  destruct (flatten_from _ ms2 v1 i1) as [[[r2 v2] i2]|] eqn:Hb; [|done].
  cbn in H2. injection H2 as <- <- <-.
  destruct (flatten_from_inv _ _ _ _ _ _ _ Hb) as (_ & Hv & _).
  pose proof (flatten_from_indexes _ _ _ _ _ _ _ Hb) as Hi.
  eexists _, r2, _, _. split; [reflexivity|]. cbn [meshes vertexes indexes].
  split; [done|]. split; [exact Hv|exact Hi].
Qed.

Lemma flatten_prefix_example :
  exists st1 recs vs ixs,
    flatten {| mMeshes := [submesh_A]; mMaterials := mMaterials scene_AB |} = Some st1 /\
    meshes buffers_AB = meshes st1 ++ recs /\
    vertexes buffers_AB = vertexes st1 ++ vs /\
    indexes buffers_AB = indexes st1 ++ ixs.
Proof.
  exact (flatten_prefix (mMaterials scene_AB) [submesh_A] [submesh_B] buffers_AB eq_refl).
Defined.
